(** * NL Jewellers calculator: the pricing sweep, the replay total and the
    saved-calculations store

    Shallow embedding of the three calculator components of the repository
    (the gold calculator, the silver calculator with a purity selector, and
    the silver calculator fixed to purity 999) and the properties checked
    against them.

    Numbers.  The components are embedded twice.

    In [Engine] a JavaScript [number] is [NaN] or an exact rational, and a
    [number] that comes out of [parseInt] or out of the loop counter is
    [INaN] or an exact integer.  On this embedding stand the properties that
    hold whatever the arithmetic does: which expression a field holds, which
    result is selected, what the store keeps, what the validator flags.

    In [Engine64] a [number] is an IEEE 754 binary64 value, every operation
    rounds as JavaScript does, and the loop of the sweep need not come to an
    end.  On this embedding stand the properties that depend on a value, on
    an order between values or on the loop returning.

    Text is ASCII. *)

From Stdlib Require Import Ascii String QArith Qround Qpower Lqa.
From Stdlib Require Import SpecFloat PrimFloat FloatOps.
From stdpp Require Import gmap strings list fin_maps.
From Equations Require Import Equations.

Local Open Scope Z_scope.

(** A decimal literal of a primitive float stands for the nearest binary64
    value, as it does in JavaScript. *)
Set Warnings "-inexact-float".

(** ** JavaScript numbers *)

Module JS.

Inductive number : Type :=
| NaN
| Num (q : Q).

Inductive integer : Type :=
| INaN
| Int (z : Z).

Definition of_integer (i : integer) : number :=
  match i with
  | INaN => NaN
  | Int z => Num (inject_Z z)
  end.

Definition lift2 (f : Q -> Q -> Q) (a b : number) : number :=
  match a, b with
  | Num x, Num y => Num (f x y)
  | _, _ => NaN
  end.

Definition add : number -> number -> number := lift2 Qplus.
Definition sub : number -> number -> number := lift2 Qminus.
Definition mul : number -> number -> number := lift2 Qmult.

(** [a / b].  The only divisions of the program have a divisor that is the
    constant 100 or a rate already tested to be [> 0]; a zero divisor, which
    JavaScript answers with an infinity or [NaN], is answered [NaN] here. *)
Definition div (a b : number) : number :=
  match a, b with
  | Num x, Num y => if Qeq_bool y 0 then NaN else Num (x / y)
  | _, _ => NaN
  end.

Definition Qltb (x y : Q) : bool := negb (Qle_bool y x).

(** Comparisons: every comparison with [NaN] is [false]. *)
Definition le (a b : number) : bool :=
  match a, b with
  | Num x, Num y => Qle_bool x y
  | _, _ => false
  end.

Definition lt (a b : number) : bool :=
  match a, b with
  | Num x, Num y => Qltb x y
  | _, _ => false
  end.

Definition gt (a b : number) : bool := lt b a.

(** [a === b] on numbers: [NaN] is equal to nothing, itself included. *)
Definition eqb (a b : number) : bool :=
  match a, b with
  | Num x, Num y => Qeq_bool x y
  | _, _ => false
  end.

(** [!s] on a string: only the empty string is falsy. *)
Definition falsy (s : string) : bool :=
  match s with
  | EmptyString => true
  | String _ _ => false
  end.

Definition ilt (a b : integer) : bool :=
  match a, b with
  | Int x, Int y => x <? y
  | _, _ => false
  end.

Definition igt (a b : integer) : bool := ilt b a.

(** *** [parseInt(s, 10)] and [parseFloat(s)] on ASCII text *)

Definition is_space (c : ascii) : bool :=
  let n := nat_of_ascii c in
  (n =? 32)%nat || ((9 <=? n)%nat && (n <=? 13)%nat).

Definition digit_of (c : ascii) : option Z :=
  let n := Z.of_nat (nat_of_ascii c) in
  if (48 <=? n) && (n <=? 57) then Some (n - 48) else None.

Fixpoint skip_spaces (s : string) : string :=
  match s with
  | String c s' => if is_space c then skip_spaces s' else s
  | EmptyString => s
  end.

(** Longest run of decimal digits at the head of [s]: its value on top of
    [acc], how many digits were read, and the rest of the text. *)
Fixpoint digits (s : string) (acc : Z) (n : nat) : Z * nat * string :=
  match s with
  | String c s' =>
      match digit_of c with
      | Some d => digits s' (10 * acc + d) (S n)
      | None => (acc, n, s)
      end
  | EmptyString => (acc, n, s)
  end.

(** An optional sign: [true] for a leading minus. *)
Definition sign (s : string) : bool * string :=
  match s with
  | String "-" s' => (true, s')
  | String "+" s' => (false, s')
  | _ => (false, s)
  end.

Definition signed (neg : bool) (z : Z) : Z := if neg then - z else z.

(** [parseInt(s, 10)]: leading white space, a sign, then the longest run of
    digits; [NaN] when there is no digit. *)
Definition parseInt (s : string) : integer :=
  let '(neg, s1) := sign (skip_spaces s) in
  let '(v, n, _) := digits s1 0 0 in
  match n with
  | O => INaN
  | S _ => Int (signed neg v)
  end.

(** The exponent part [e[+-]ddd], when it is there in full. *)
Definition exponent (s : string) : Z :=
  match s with
  | String c s' =>
      if (c =? "e")%char || (c =? "E")%char then
        let '(neg, s1) := sign s' in
        let '(v, n, _) := digits s1 0 0 in
        match n with
        | O => 0
        | S _ => signed neg v
        end
      else 0
  | EmptyString => 0
  end.

Definition pow10 (e : Z) : Q := Qpower (10 # 1) e.

(** [parseFloat]: leading white space, a sign, digits with an optional
    fraction or a fraction alone, an optional exponent; the longest such
    prefix is read and the rest of the text is ignored; [NaN] when there is
    no such prefix.  The value is the exact decimal value.  The literal
    [Infinity] is not read. *)
Definition parseFloat (s : string) : number :=
  let '(neg, s1) := sign (skip_spaces s) in
  let '(ip, ni, s2) := digits s1 0 0 in
  let '(m, nf, s3) :=
    match s2 with
    | String "." s' => let '(m, nf, s3) := digits s' ip 0 in (m, nf, s3)
    | _ => (ip, O, s2)
    end in
  match (ni + nf)%nat with
  | O => NaN
  | S _ =>
      Num (inject_Z (signed neg m) * pow10 (exponent s3 - Z.of_nat nf))
  end.

End JS.

(** ** Data model shared by the three calculators *)

(** [ResultDetail]: one priced result of the sweep. *)
Record ResultDetail : Type := mkResult {
  percent : Z;
  wastageValue : JS.number;
  purityValue : JS.number;
  total : JS.number;
  wastageInGrams : JS.number
}.

(** The keys of the [errors] object:
    [keyof Omit<CalculationParams, 'id' | 'purity' | 'selectedPercent'>]. *)
Inductive field : Type :=
| F_price        (* 'goldPrice' / 'silverPrice' *)
| F_weight       (* 'goldWeight' / 'silverWeight' *)
| F_minPercent
| F_maxPercent.

#[global] Instance field_eq_dec : EqDecision field.
Proof. solve_decision. Defined.

Definition field_code (f : field) : nat :=
  match f with
  | F_price => 0 | F_weight => 1 | F_minPercent => 2 | F_maxPercent => 3
  end%nat.

Definition field_decode (n : nat) : field :=
  match n with
  | 0 => F_price | 1 => F_weight | 2 => F_minPercent | _ => F_maxPercent
  end%nat.

#[global] Instance field_countable : Countable field.
Proof.
  apply (inj_countable' field_code field_decode).
  intros []; reflexivity.
Defined.

(** The body of the [for] loop of [calculateAndSelect] at the percent [i]. *)
Definition resultAt (price weight : JS.number) (purityDecimal : Q) (i : Z)
  : ResultDetail :=
  let wastagePercentDecimal := JS.div (JS.of_integer (JS.Int i)) (JS.Num 100) in
  let purityValue := JS.mul (JS.mul weight (JS.Num purityDecimal)) price in
  let wastageValue := JS.mul (JS.mul weight wastagePercentDecimal) price in
  let total := JS.add purityValue wastageValue in
  let rateOfAlloyed := JS.mul price (JS.Num purityDecimal) in
  let wastageInGrams :=
    if JS.gt rateOfAlloyed (JS.Num 0)
    then JS.div wastageValue rateOfAlloyed
    else JS.Num 0 in
  {| percent := i; wastageValue := wastageValue; purityValue := purityValue;
     total := total; wastageInGrams := wastageInGrams |}.

(** [for (let i = min; i <= max; i++) newResults.push(body i)], from the
    counter [i] on, with the results pushed so far. *)
Equations? sweep (body : Z -> ResultDetail) (i maxP : Z)
    (newResults : list ResultDetail) : list ResultDetail
    by wf (Z.to_nat (maxP + 1 - i)) lt :=
  sweep body i maxP newResults with decide (i <= maxP) := {
    | left _ => sweep body (i + 1) maxP (newResults ++ [body i]);
    | right _ => newResults }.
Proof. lia. Qed.

(** The loop with its bounds as JavaScript hands them over: with a [NaN]
    bound the test [i <= max] is false at once and nothing is pushed. *)
Definition sweepRange (body : Z -> ResultDetail) (min max : JS.integer)
  : list ResultDetail :=
  match min, max with
  | JS.Int a, JS.Int b => sweep body a b []
  | _, _ => []
  end.

(** ** The calculator component, once for its three copies

    The three components differ in the purity type of a saved calculation
    ([P]), in the purity the component itself holds ([SP]: a selector, or
    nothing in the copy whose purity is the constant '999'), and in the
    purity decimals used by the replay helper and by the sweep.  The
    rendering, the customer view and the effect that resets the two bounds
    when the purity selector changes are outside the model. *)

Module Engine.
Section Engine.

Variables P SP : Type.
(** [purityDecimal] of [calculateTotalFromParams]. *)
Variable replayDecimal : P -> Q.
(** [purityDecimal] of [calculateAndSelect]. *)
Variable sweepDecimal : SP -> Q.
(** The [purity] written into a saved calculation by [handleSave]. *)
Variable savedPurity : SP -> P.
(** What [loadCalculation] does to the purity of the component. *)
Variable loadPurity : P -> SP -> SP.

(** [CalculationParams] / [SilverCalculationParams]. *)
Record CalculationParams : Type := mkParams {
  p_id : string;
  p_price : string;          (* goldPrice / silverPrice *)
  p_weight : string;         (* goldWeight / silverWeight *)
  p_purity : P;
  p_minPercent : string;
  p_maxPercent : string;
  p_selectedPercent : option Z   (* selectedPercent?: number; only ever
                                    written from the percent of a result *)
}.

(** The [useState] cells of the component that the engine reads or writes. *)
Record State : Type := mkState {
  price : string;            (* goldPrice / silverPrice *)
  weight : string;           (* goldWeight / silverWeight *)
  purity : SP;
  minPercent : string;
  maxPercent : string;
  errors : gmap field string;
  results : list ResultDetail;
  selectedResult : option ResultDetail;
  savedCalculations : list CalculationParams;
  loadRequest : option CalculationParams
}.

Definition setErrors (e : gmap field string) (st : State) : State :=
  mkState (price st) (weight st) (purity st) (minPercent st) (maxPercent st)
    e (results st) (selectedResult st) (savedCalculations st) (loadRequest st).

Definition setResults (rs : list ResultDetail) (st : State) : State :=
  mkState (price st) (weight st) (purity st) (minPercent st) (maxPercent st)
    (errors st) rs (selectedResult st) (savedCalculations st) (loadRequest st).

Definition setSelectedResult (r : option ResultDetail) (st : State) : State :=
  mkState (price st) (weight st) (purity st) (minPercent st) (maxPercent st)
    (errors st) (results st) r (savedCalculations st) (loadRequest st).

Definition setSavedCalculations
    (f : list CalculationParams -> list CalculationParams) (st : State)
  : State :=
  mkState (price st) (weight st) (purity st) (minPercent st) (maxPercent st)
    (errors st) (results st) (selectedResult st) (f (savedCalculations st))
    (loadRequest st).

Definition setLoadRequest (c : option CalculationParams) (st : State) : State :=
  mkState (price st) (weight st) (purity st) (minPercent st) (maxPercent st)
    (errors st) (results st) (selectedResult st) (savedCalculations st) c.

(** *** [calculateTotalFromParams] *)

Definition replayPercent (params : CalculationParams) : JS.integer :=
  match p_selectedPercent params with
  | Some p => JS.Int p
  | None => JS.parseInt (p_minPercent params)
  end.

Definition calculateTotalFromParams (params : CalculationParams) : JS.number :=
  let price := JS.parseFloat (p_price params) in
  let weight := JS.parseFloat (p_weight params) in
  let purityDecimal := JS.Num (replayDecimal (p_purity params)) in
  let percent := replayPercent params in
  let wastagePercentDecimal := JS.div (JS.of_integer percent) (JS.Num 100) in
  let purityValue := JS.mul (JS.mul weight purityDecimal) price in
  let wastageValue := JS.mul (JS.mul weight wastagePercentDecimal) price in
  let total := JS.add purityValue wastageValue in
  total.

(** *** [validate] *)

(** The [newErrors] object built by the five tests, in their order. *)
Definition newErrors (st : State) : gmap field string :=
  let e0 : gmap field string := ∅ in
  let e1 :=
    if JS.falsy (price st) || JS.le (JS.parseFloat (price st)) (JS.Num 0)
    then <[F_price := "Invalid price"]> e0 else e0 in
  let e2 :=
    if JS.falsy (weight st) || JS.le (JS.parseFloat (weight st)) (JS.Num 0)
    then <[F_weight := "Invalid weight"]> e1 else e1 in
  let e3 :=
    if JS.falsy (minPercent st)
       || JS.ilt (JS.parseInt (minPercent st)) (JS.Int 0)
    then <[F_minPercent := "Invalid %"]> e2 else e2 in
  let e4 :=
    if JS.falsy (maxPercent st)
       || JS.ilt (JS.parseInt (maxPercent st)) (JS.Int 0)
    then <[F_maxPercent := "Invalid %"]> e3 else e3 in
  let e5 :=
    if JS.igt (JS.parseInt (minPercent st)) (JS.parseInt (maxPercent st))
    then <[F_maxPercent := "Max must be >= min"]> e4 else e4 in
  e5.

(** [validate()]: the answer, and the state after [setErrors(newErrors)]. *)
Definition validate (st : State) : bool * State :=
  let e := newErrors st in
  (Nat.eqb (size e) 0, setErrors e st).

(** *** [calculateAndSelect] *)

Definition calculateAndSelect (selectedPercent : option Z) (st : State)
  : State :=
  let '(ok, st) := validate st in
  if negb ok then setSelectedResult None (setResults [] st)
  else
    let price := JS.parseFloat (price st) in
    let weight := JS.parseFloat (weight st) in
    let purityDecimal := sweepDecimal (purity st) in
    let min := JS.parseInt (minPercent st) in
    let max := JS.parseInt (maxPercent st) in
    let newResults := sweepRange (resultAt price weight purityDecimal) min max in
    let st := setResults newResults st in
    match selectedPercent with
    | Some target =>
        let resultToSelect := find (fun r => percent r =? target) newResults in
        setSelectedResult
          (match resultToSelect with
           | Some r => Some r
           | None => head newResults
           end) st
    | None => setSelectedResult (head newResults) st
    end.

(** [handleCalculate]. *)
Definition handleCalculate (st : State) : State := calculateAndSelect None st.

(** *** The saved calculations *)

(** [handleSave], with [Date.now().toString()] handed in as [now]. *)
Definition handleSave (now : string) (st : State) : State :=
  let '(ok, st) := validate st in
  if negb ok then st
  else
    let newSave :=
      {| p_id := now;
         p_price := price st; p_weight := weight st;
         p_purity := savedPurity (purity st);
         p_minPercent := minPercent st; p_maxPercent := maxPercent st;
         p_selectedPercent := percent <$> selectedResult st |} in
    setSavedCalculations (fun prev => newSave :: take 9 prev) st.

Definition deleteCalculation (id : string) (st : State) : State :=
  setSavedCalculations (fun prev => filter (fun c => p_id c ≠ id) prev) st.

(** [loadCalculation]: the setters of the fields and
    [setLoadRequest(params)]. *)
Definition loadCalculation (params : CalculationParams) (st : State) : State :=
  mkState (p_price params) (p_weight params)
    (loadPurity (p_purity params) (purity st))
    (p_minPercent params) (p_maxPercent params)
    (errors st) (results st) (selectedResult st) (savedCalculations st)
    (Some params).

(** The effect on [loadRequest]:
    [calculateAndSelect(loadRequest.selectedPercent); setLoadRequest(null)].
    It runs after the render that follows [loadCalculation], so on the
    loaded fields. *)
Definition loadRequestEffect (st : State) : State :=
  match loadRequest st with
  | Some c => setLoadRequest None (calculateAndSelect (p_selectedPercent c) st)
  | None => st
  end.

(** The states of a component mounted over an empty store
    ([useLocalStorage(key, [])]): its events are [handleSave],
    [deleteCalculation], and events that leave the saved calculations alone
    (typing, calculating, loading, selecting, mounting again over what was
    stored). *)
Inductive reachable : State -> Prop :=
| reach_mount st :
    savedCalculations st = [] -> reachable st
| reach_save now st :
    reachable st -> reachable (handleSave now st)
| reach_delete id st :
    reachable st -> reachable (deleteCalculation id st)
| reach_other st st' :
    reachable st -> savedCalculations st' = savedCalculations st ->
    reachable st'.

(** *** The profit indicator

    [results.length > 1 && selectedResult] guards the block; inside,
    [profit = selectedResult.total - results[0].total]. *)
Definition profit (st : State) : option JS.number :=
  match results st, selectedResult st with
  | minResult :: _ :: _, Some sel => Some (JS.sub (total sel) (total minResult))
  | _, _ => None
  end.

End Engine.

Arguments mkParams {P} _ _ _ _ _ _ _.
Arguments p_id {P} _.
Arguments p_price {P} _.
Arguments p_weight {P} _.
Arguments p_purity {P} _.
Arguments p_minPercent {P} _.
Arguments p_maxPercent {P} _.
Arguments p_selectedPercent {P} _.
Arguments mkState {P SP} _ _ _ _ _ _ _ _ _ _.
Arguments price {P SP} _.
Arguments weight {P SP} _.
Arguments purity {P SP} _.
Arguments minPercent {P SP} _.
Arguments maxPercent {P SP} _.
Arguments errors {P SP} _.
Arguments results {P SP} _.
Arguments selectedResult {P SP} _.
Arguments savedCalculations {P SP} _.
Arguments loadRequest {P SP} _.
Arguments setErrors {P SP} _ _.
Arguments setResults {P SP} _ _.
Arguments setSelectedResult {P SP} _ _.
Arguments setSavedCalculations {P SP} _ _.
Arguments setLoadRequest {P SP} _ _.
Arguments replayPercent {P} _.
Arguments calculateTotalFromParams {P} _ _.
Arguments newErrors {P SP} _.
Arguments validate {P SP} _.
Arguments calculateAndSelect {P SP} _ _ _.
Arguments handleCalculate {P SP} _ _.
Arguments handleSave {P SP} _ _ _.
Arguments deleteCalculation {P SP} _ _.
Arguments loadCalculation {P SP} _ _ _.
Arguments loadRequestEffect {P SP} _ _.
Arguments reachable {P SP} _ _.
Arguments reach_mount {P SP} _ _ _.
Arguments reach_save {P SP} _ _ _ _.
Arguments reach_delete {P SP} _ _ _ _.
Arguments reach_other {P SP} _ _ _ _ _.
Arguments profit {P SP} _.

End Engine.

(** ** The gold calculator *)

Module Gold.

Inductive purity : Type := P916 | P750.

Definition purityDecimal (p : purity) : Q :=
  match p with
  | P916 => 0.92
  | P750 => 0.75
  end.

Abbreviation CalculationParams := (Engine.CalculationParams purity).
Abbreviation State := (Engine.State purity purity).

Definition calculateTotalFromParams : CalculationParams -> JS.number :=
  Engine.calculateTotalFromParams purityDecimal.
Definition validate : State -> bool * State := Engine.validate.
Definition calculateAndSelect : option Z -> State -> State :=
  Engine.calculateAndSelect purityDecimal.
Definition handleSave : string -> State -> State :=
  Engine.handleSave (fun p => p).
Definition deleteCalculation : string -> State -> State :=
  Engine.deleteCalculation.
Definition loadCalculation : CalculationParams -> State -> State :=
  Engine.loadCalculation (fun p _ => p).

(** The component as it is mounted over an empty store. *)
Definition initial : State :=
  Engine.mkState "" "" P916 "8" "14" ∅ [] None [] None.

End Gold.

(** ** The silver calculator with a purity selector *)

Module Silver.

Inductive purity : Type := P925 | P999.

Definition purityDecimal (p : purity) : Q :=
  match p with
  | P925 => 0.925
  | P999 => 0.999
  end.

Abbreviation CalculationParams := (Engine.CalculationParams purity).
Abbreviation State := (Engine.State purity purity).

Definition calculateTotalFromParams : CalculationParams -> JS.number :=
  Engine.calculateTotalFromParams purityDecimal.
Definition validate : State -> bool * State := Engine.validate.
Definition calculateAndSelect : option Z -> State -> State :=
  Engine.calculateAndSelect purityDecimal.
Definition handleSave : string -> State -> State :=
  Engine.handleSave (fun p => p).
Definition deleteCalculation : string -> State -> State :=
  Engine.deleteCalculation.
Definition loadCalculation : CalculationParams -> State -> State :=
  Engine.loadCalculation (fun p _ => p).

Definition initial : State :=
  Engine.mkState "" "" P925 "12" "20" ∅ [] None [] None.

End Silver.

(** ** The silver calculator fixed to purity 999

    [const purity = '999'] is no state of this component: its purity state
    is [unit].  The replay helper still reads the saved purity with the
    decimals 0.925 and 0.999, and the sweep uses [purityDecimal = 1.0]. *)

Module Silver999.

Abbreviation purity := Silver.purity.

Definition replayDecimal (p : purity) : Q :=
  match p with
  | Silver.P925 => 0.925
  | Silver.P999 => 0.999
  end.

Definition purityDecimal (_ : unit) : Q := 1.0.

Abbreviation CalculationParams := (Engine.CalculationParams purity).
Abbreviation State := (Engine.State purity unit).

Definition calculateTotalFromParams : CalculationParams -> JS.number :=
  Engine.calculateTotalFromParams replayDecimal.
Definition validate : State -> bool * State := Engine.validate.
Definition calculateAndSelect : option Z -> State -> State :=
  Engine.calculateAndSelect purityDecimal.
Definition handleSave : string -> State -> State :=
  Engine.handleSave (fun _ => Silver.P999).
Definition deleteCalculation : string -> State -> State :=
  Engine.deleteCalculation.
Definition loadCalculation : CalculationParams -> State -> State :=
  Engine.loadCalculation (fun _ s => s).

Definition initial : State :=
  Engine.mkState "" "" tt "8" "15" ∅ [] None [] None.

End Silver999.

(** ** Concrete inputs used by the examples below *)

Module Scenario.
Import Engine.

(** Gold, 22K: price 7200, weight 10, purity 916, range 8 to 14. *)
Definition gold : Gold.State :=
  mkState "7200" "10" Gold.P916 "8" "14" ∅ [] None [] None.

(** A calculation saved by the 999 silver calculator: price 85, weight 50,
    range 8 to 15, the 8% result selected. *)
Definition silverSave : Silver999.CalculationParams :=
  mkParams "1700000000000" "85" "50" Silver.P999 "8" "15" (Some 8).

(** The gold form with the text [abc] in all four numeric fields. *)
Definition goldAbc : Gold.State :=
  mkState "abc" "abc" Gold.P916 "abc" "abc" ∅ [] None [] None.

(** The gold form with the text [abc] as the price and nothing else wrong. *)
Definition goldAbcPrice : Gold.State :=
  mkState "abc" "10" Gold.P916 "8" "14" ∅ [] None [] None.

(** Ten saved gold calculations, ids "1" (newest) to "10" (oldest). *)
Definition tenSaves : list Gold.CalculationParams :=
  (fun id => mkParams id "7200" "10" Gold.P916 "8" "14" (Some 8))
    <$> ["1"; "2"; "3"; "4"; "5"; "6"; "7"; "8"; "9"; "10"].

Definition goldFull : Gold.State :=
  mkState "7200" "10" Gold.P916 "8" "14" ∅ [] None tenSaves None.

End Scenario.

(** ** The five-tap close of the customer view

    The tap counter that closes the customer view of the silver calculator
    fixed to 999. *)

Module View.

(** The two cells behind the modal of the 999 silver calculator. *)
Record Modal : Type := mkModal {
  showCustomerView : bool;
  closeClickCount : Z
}.

(** The button "Show to Customer":
    [setShowCustomerView(true); setCloseClickCount(0)]. *)
Definition openView (m : Modal) : Modal :=
  {| showCustomerView := true; closeClickCount := 0 |}.

(** A tap on the title of the modal. *)
Definition tapTitle (m : Modal) : Modal :=
  let newCount := closeClickCount m + 1 in
  if 5 <=? newCount
  then {| showCustomerView := false; closeClickCount := 0 |}
  else {| showCustomerView := showCustomerView m;
          closeClickCount := newCount |}.

End View.

(** ** The effect that resets the bounds when the purity changes

    The body of the effect, as a function on the form; when React runs it
    relative to the other updates of a render is not modelled. *)

Module PurityEffect.

Definition setBounds {P SP : Type} (lo hi : string) (st : Engine.State P SP)
  : Engine.State P SP :=
  Engine.mkState (Engine.price st) (Engine.weight st) (Engine.purity st)
    lo hi (Engine.errors st) (Engine.results st) (Engine.selectedResult st)
    (Engine.savedCalculations st) (Engine.loadRequest st).

(** Gold: '916' gives 8 to 14, '750' gives 10 to 18. *)
Definition gold (st : Gold.State) : Gold.State :=
  match Engine.purity st with
  | Gold.P916 => setBounds "8" "14" st
  | Gold.P750 => setBounds "10" "18" st
  end.

(** Silver with a selector: '925' gives 12 to 20, '999' gives 8 to 15. *)
Definition silver (st : Silver.State) : Silver.State :=
  match Engine.purity st with
  | Silver.P925 => setBounds "12" "20" st
  | Silver.P999 => setBounds "8" "15" st
  end.

End PurityEffect.

(** ** The install banner ([InstallPrompt])

    The three [useState] cells, whether the two window listeners were added
    by the mount effect, and the [localStorage] the component reads and
    writes.  A [beforeinstallprompt] event is named by a number. *)

Module InstallPrompt.

Record State : Type := mkState {
  deferredPrompt : option nat;
  showPrompt : bool;
  isInstalled : bool;
  listening : bool;
  localStorage : gmap string string
}.

Definition dismissedKey : string := "installPromptDismissed".

(** The mount effect on fresh cells: in standalone display mode the
    component marks itself installed and adds no listener. *)
Definition mount (standalone : bool) (storage : gmap string string) : State :=
  if standalone
  then mkState None false true false storage
  else mkState None false false true storage.

(** Whether [localStorage.getItem('installPromptDismissed')] is truthy. *)
Definition dismissed (s : State) : bool :=
  match localStorage s !! dismissedKey with
  | None => false
  | Some v => negb (JS.falsy v)
  end.

(** [handleBeforeInstallPrompt]. *)
Definition handleBeforeInstallPrompt (e : nat) (s : State) : State :=
  let show := if negb (dismissed s) then true else showPrompt s in
  mkState (Some e) show (isInstalled s) (listening s) (localStorage s).

(** The [appinstalled] listener. *)
Definition handleAppInstalled (s : State) : State :=
  mkState None false true (listening s) (localStorage s).

(** [handleInstallClick], once the user has answered the browser's prompt:
    both answers end in the same two setters. *)
Definition handleInstallClick (s : State) : State :=
  match deferredPrompt s with
  | None => s
  | Some _ => mkState None false (isInstalled s) (listening s) (localStorage s)
  end.

(** [handleDismiss]. *)
Definition handleDismiss (s : State) : State :=
  mkState (deferredPrompt s) false (isInstalled s) (listening s)
    (<[dismissedKey := "true"]> (localStorage s)).

(** Whether the banner is rendered:
    not [isInstalled || !showPrompt || !deferredPrompt]. *)
Definition visible (s : State) : bool :=
  negb (isInstalled s || negb (showPrompt s)
        || match deferredPrompt s with None => true | Some _ => false end).

Inductive Event : Type :=
| BeforeInstallPrompt (e : nat)
| AppInstalled
| InstallClick
| Dismiss
| Remount (standalone : bool).

(** A window event reaches its listener only if the mount effect added it;
    mounting again starts from fresh cells over the same storage. *)
Definition step (s : State) (ev : Event) : State :=
  match ev with
  | BeforeInstallPrompt e =>
      if listening s then handleBeforeInstallPrompt e s else s
  | AppInstalled => if listening s then handleAppInstalled s else s
  | InstallClick => handleInstallClick s
  | Dismiss => handleDismiss s
  | Remount standalone => mount standalone (localStorage s)
  end.

Definition run (evs : list Event) (s : State) : State := foldl step s evs.

(** What every state of a mounted component satisfies. *)
Definition banner_inv (s : State) : Prop :=
  (dismissed s = true -> showPrompt s = false) /\
  (showPrompt s = true -> is_Some (deferredPrompt s)) /\
  (listening s = false -> isInstalled s = true).

End InstallPrompt.

(** ** The service worker

    The handlers of [fetch] and [activate] over a model of the browser's
    cache storage: the caches in the order they were created, each a map from
    request URL to response.  A handler is taken with the state it leaves
    once its promises have settled. *)

Module ServiceWorker.

Definition CACHE_NAME : string := "nl-calculator-v2".
Definition STATIC_CACHE : string := "nl-calculator-static-v2".
Definition DYNAMIC_CACHE : string := "nl-calculator-dynamic-v2".

Record Request : Type := mkRequest {
  method : string;
  url : string;
  destination : string
}.

Record Response : Type := mkResponse {
  status : Z;
  type : string;
  body : string
}.

(** [s.startsWith(p)] and [s.includes(sub)]. *)
Definition startsWith (p s : string) : bool := String.prefix p s.

Fixpoint includes (sub s : string) : bool :=
  String.prefix sub s
  || match s with
     | EmptyString => false
     | String _ s' => includes sub s'
     end.

(** The seven tests that decide whether a network response is stored. *)
Definition isDynamicContent (url : string) : bool :=
  includes ".js" url || includes ".css" url || includes ".woff" url
  || includes ".woff2" url || includes ".png" url || includes ".jpg" url
  || includes ".svg" url.

Abbreviation Cache := (gmap string Response).
Abbreviation CacheStorage := (list (string * Cache)).

(** [caches.match(url)]: the entry of the first cache, in creation order,
    that has one. *)
Fixpoint cachesMatch (url : string) (caches : CacheStorage)
  : option Response :=
  match caches with
  | [] => None
  | (_, cache) :: rest =>
      match cache !! url with
      | Some r => Some r
      | None => cachesMatch url rest
      end
  end.

(** [caches.open(name).then(cache => cache.put(url, response))]: the cache
    is created at the end of the storage when it is not there. *)
Fixpoint cachesPut (name url : string) (response : Response)
    (caches : CacheStorage) : CacheStorage :=
  match caches with
  | [] => [(name, {[url := response]})]
  | (n, cache) :: rest =>
      if String.eqb n name
      then (n, <[url := response]> cache) :: rest
      else (n, cache) :: cachesPut name url response rest
  end.

(** The [fetch] handler.  [network] is what [fetch(request)] settles to,
    [None] when it rejects; [indexUrl] is the URL of '/index.html'.  The
    first component is [None] when the handler returns without
    [respondWith], else the response handed to the page ([None] for
    [undefined]). *)
Definition onFetch (indexUrl : string) (network : option Response)
    (request : Request) (caches : CacheStorage)
  : option (option Response) * CacheStorage :=
  if negb (String.eqb (method request) "GET") then (None, caches)
  else if negb (startsWith "http" (url request)) then (None, caches)
  else
    match cachesMatch (url request) caches with
    | Some cachedResponse => (Some (Some cachedResponse), caches)
    | None =>
        match network with
        | Some networkResponse =>
            if negb (status networkResponse =? 200)
               || String.eqb (type networkResponse) "error"
            then (Some (Some networkResponse), caches)
            else if isDynamicContent (url request)
            then (Some (Some networkResponse),
                  cachesPut DYNAMIC_CACHE (url request) networkResponse caches)
            else (Some (Some networkResponse), caches)
        | None =>
            if String.eqb (destination request) "document"
            then (Some (cachesMatch indexUrl caches), caches)
            else (Some None, caches)
        end
    end.

(** The [activate] handler: every cache whose name is none of the three is
    deleted. *)
Definition onActivate (caches : CacheStorage) : CacheStorage :=
  List.filter
    (fun '(cacheName, _) =>
       negb (negb (String.eqb cacheName STATIC_CACHE)
             && negb (String.eqb cacheName DYNAMIC_CACHE)
             && negb (String.eqb cacheName CACHE_NAME)))
    caches.

(** A run of fetch events, each with what the network answers. *)
Definition fetches (indexUrl : string)
    (evs : list (option Response * Request)) (caches : CacheStorage)
  : CacheStorage :=
  foldl (fun cs '(network, request) => (onFetch indexUrl network request cs).2)
    caches evs.

End ServiceWorker.

(** ** More concrete inputs *)

Module Inputs.
Import Engine.

(** A gold form with three saved calculations. *)
Definition goldThreeSaves : Gold.State :=
  mkState "7200" "10" Gold.P916 "8" "14" ∅ [] None
    ((fun id => mkParams id "6900" "4" Gold.P750 "10" "18" (Some 11))
       <$> ["30"; "20"; "10"]) None.

(** A script and an image as the service worker sees them. *)
Definition scriptRequest : ServiceWorker.Request :=
  ServiceWorker.mkRequest "GET" "https://nl.example/assets/index.js" "script".

Definition okResponse : ServiceWorker.Response :=
  ServiceWorker.mkResponse 200 "basic" "console.log(1)".

Definition staleResponse : ServiceWorker.Response :=
  ServiceWorker.mkResponse 200 "basic" "console.log(0)".

Definition someCaches : ServiceWorker.CacheStorage :=
  [("nl-calculator-static-v1", {["https://nl.example/" := staleResponse]});
   (ServiceWorker.STATIC_CACHE, {["https://nl.example/" := okResponse]})].

Definition manifestRequest : ServiceWorker.Request :=
  ServiceWorker.mkRequest "GET" "https://nl.example/manifest.json" "manifest".

(** A gold form with no price, a negative weight and the bounds 9 and 3. *)
Definition goldInverted : Gold.State :=
  mkState "" "-1" Gold.P916 "9" "3" ∅ [] None [] None.

(** A silver form with the purity 999 selected and bounds still to reset. *)
Definition silverForm : Silver.State :=
  mkState "85" "50" Silver.P999 "1" "2" ∅ [] None [] None.

End Inputs.

(** ** The sweep in binary64

    The properties of the sweep that depend on how JavaScript rounds, on
    overflow and underflow, or on the loop coming to an end are stated on a
    second embedding of [validate] and [calculateAndSelect], in which a
    [number] is an IEEE 754 binary64 value: [NaN], an infinity, or a finite
    value kept as the rational it denotes.  Every operation is the exact
    operation followed by rounding to the nearest value of 53 significant
    bits, ties to even, with the least exponent -1074 and overflow to an
    infinity from 2^1024 on.  The sign of a zero is not kept: the program
    never divides by a zero and never tells the two zeros apart in what it
    stores. *)

Module B64.

Inductive number : Type :=
| NaN
| Inf (neg : bool)
| Fin (q : Q).

Definition pow2 (e : Z) : Q := Qpower 2 e.

(** [ilog2 x] for [x > 0]: the [l] with [2^l <= x < 2^(l+1)]. *)
Definition ilog2 (x : Q) : Z :=
  let k := Z.log2 (Qnum x) - Z.log2 (Zpos (Qden x)) in
  if Qle_bool (pow2 k) x then k else k - 1.

(** The nearest integer, ties to even. *)
Definition rne (y : Q) : Z :=
  let f := Qfloor y in
  match (y - inject_Z f ?= 1 # 2)%Q with
  | Lt => f
  | Gt => f + 1
  | Eq => if Z.even f then f else f + 1
  end.

(** [x > 0] rounded to 53 significant bits, or to a multiple of 2^-1074
    below 2^-1022. *)
Definition round_pos (x : Q) : Q :=
  let e := Z.max (ilog2 x - 52) (-1074) in
  (inject_Z (rne (x * pow2 (- e))) * pow2 e)%Q.

(** The binary64 value of the real number [x]. *)
Definition round (x : Q) : number :=
  match (x ?= 0)%Q with
  | Eq => Fin 0
  | Gt => let v := round_pos x in
          if Qle_bool (pow2 1024) v then Inf false else Fin (Qred v)
  | Lt => let v := round_pos (- x) in
          if Qle_bool (pow2 1024) v then Inf true else Fin (Qred (- v))
  end.

Definition is_neg (q : Q) : bool := negb (Qle_bool 0 q).

Definition is_nan (x : number) : bool :=
  match x with
  | NaN => true
  | _ => false
  end.

Definition mul (x y : number) : number :=
  match x, y with
  | NaN, _ | _, NaN => NaN
  | Fin a, Fin b => round (a * b)
  | Inf s, Inf t => Inf (xorb s t)
  | Inf s, Fin b | Fin b, Inf s =>
      if Qeq_bool b 0 then NaN else Inf (xorb s (is_neg b))
  end.

Definition add (x y : number) : number :=
  match x, y with
  | NaN, _ | _, NaN => NaN
  | Fin a, Fin b => round (a + b)
  | Inf s, Inf t => if Bool.eqb s t then Inf s else NaN
  | Inf s, Fin _ | Fin _, Inf s => Inf s
  end.

Definition opp (x : number) : number :=
  match x with
  | NaN => NaN
  | Inf s => Inf (negb s)
  | Fin a => Fin (- a)
  end.

Definition sub (x y : number) : number := add x (opp y).

Definition div (x y : number) : number :=
  match x, y with
  | NaN, _ | _, NaN => NaN
  | Fin a, Fin b =>
      if Qeq_bool b 0
      then (if Qeq_bool a 0 then NaN else Inf (is_neg a))
      else round (a / b)
  | Inf _, Inf _ => NaN
  | Inf s, Fin b => Inf (xorb s (is_neg b))
  | Fin _, Inf _ => Fin 0
  end.

(** Comparisons: every comparison with [NaN] is [false]. *)
Definition le (x y : number) : bool :=
  match x, y with
  | NaN, _ | _, NaN => false
  | Fin a, Fin b => Qle_bool a b
  | Inf s, Inf t => implb t s
  | Inf s, Fin _ => s
  | Fin _, Inf t => negb t
  end.

Definition lt (x y : number) : bool :=
  match x, y with
  | NaN, _ | _, NaN => false
  | _, _ => negb (le y x)
  end.

Definition gt (x y : number) : bool := lt y x.

(** [x === y] on numbers. *)
Definition eqb (x y : number) : bool := le x y && le y x.

(** [parseFloat(s)]: the literal [Infinity], or the decimal value read by
    [JS.parseFloat], rounded. *)
Definition parseFloat (s : string) : number :=
  let '(neg, s1) := JS.sign (JS.skip_spaces s) in
  if String.prefix "Infinity" s1 then Inf neg
  else
    match JS.parseFloat s with
    | JS.NaN => NaN
    | JS.Num q => round q
    end.

(** [parseInt(s, 10)]: the value of the digits read by [JS.parseInt],
    rounded. *)
Definition parseInt (s : string) : number :=
  match JS.parseInt s with
  | JS.INaN => NaN
  | JS.Int z => round (inject_Z z)
  end.

(** The value of a primitive float of Rocq's kernel, which computes in
    binary64: used to check the operations above against it. *)
Definition of_float (f : float) : number :=
  match Prim2SF f with
  | S754_zero _ => Fin 0
  | S754_infinity s => Inf s
  | S754_nan => NaN
  | S754_finite s m e =>
      Fin (Qred (inject_Z (if s then Z.neg m else Z.pos m) * pow2 e))
  end.

End B64.

Module Engine64.

(** [ResultDetail], with binary64 fields. *)
Record ResultDetail : Type := mkResult {
  percent : B64.number;
  wastageValue : B64.number;
  purityValue : B64.number;
  total : B64.number;
  wastageInGrams : B64.number
}.

(** The body of the [for] loop of [calculateAndSelect] at the counter [i]. *)
Definition resultAt (price weight purityDecimal i : B64.number)
  : ResultDetail :=
  let wastagePercentDecimal := B64.div i (B64.Fin 100) in
  let purityValue := B64.mul (B64.mul weight purityDecimal) price in
  let wastageValue := B64.mul (B64.mul weight wastagePercentDecimal) price in
  let total := B64.add purityValue wastageValue in
  let rateOfAlloyed := B64.mul price purityDecimal in
  let wastageInGrams :=
    if B64.gt rateOfAlloyed (B64.Fin 0)
    then B64.div wastageValue rateOfAlloyed
    else B64.Fin 0 in
  {| percent := i; wastageValue := wastageValue; purityValue := purityValue;
     total := total; wastageInGrams := wastageInGrams |}.

(** What a call that may loop or throw comes to. *)
Inductive outcome (A : Type) : Type :=
| Running            (* still in the loop when the turns were used up *)
| Throws             (* RangeError: invalid array length *)
| Returns (a : A).

Arguments Running {A}.
Arguments Throws {A}.
Arguments Returns {A} _.

(** The greatest length of an array, 2^32 - 1: [push] on an array of this
    length throws. *)
Definition maxLength : Z := 4294967295.

(** [for (let i = min; i <= max; i++) newResults.push(body i)], from the
    counter [i] on.  [i++] is the binary64 sum [i + 1], which is [i] itself
    from 2^53 on, so the loop need not come to an end: [fuel] bounds the
    number of turns, and [Running] says that the loop was still running when
    they were used up. *)
Fixpoint sweep (fuel : nat) (body : B64.number -> ResultDetail)
    (i maxP : B64.number) (newResults : list ResultDetail)
  : outcome (list ResultDetail) :=
  if B64.le i maxP then
    match fuel with
    | O => Running
    | S fuel' =>
        if Z.of_nat (length newResults) <? maxLength
        then sweep fuel' body (B64.add i (B64.Fin 1)) maxP
               (newResults ++ [body i])
        else Throws
    end
  else Returns newResults.

Section Engine64.

Variable SP : Type.
(** [purityDecimal] of [calculateAndSelect], as the decimal literal of the
    source. *)
Variable sweepDecimal : SP -> Q.

(** The [useState] cells that [validate] and [calculateAndSelect] read or
    write. *)
Record State : Type := mkState {
  price : string;
  weight : string;
  purity : SP;
  minPercent : string;
  maxPercent : string;
  errors : gmap field string;
  results : list ResultDetail;
  selectedResult : option ResultDetail
}.

Definition setErrors (e : gmap field string) (st : State) : State :=
  mkState (price st) (weight st) (purity st) (minPercent st) (maxPercent st)
    e (results st) (selectedResult st).

Definition setResults (rs : list ResultDetail) (st : State) : State :=
  mkState (price st) (weight st) (purity st) (minPercent st) (maxPercent st)
    (errors st) rs (selectedResult st).

Definition setSelectedResult (r : option ResultDetail) (st : State) : State :=
  mkState (price st) (weight st) (purity st) (minPercent st) (maxPercent st)
    (errors st) (results st) r.

Definition newErrors (st : State) : gmap field string :=
  let e0 : gmap field string := ∅ in
  let e1 :=
    if JS.falsy (price st) || B64.le (B64.parseFloat (price st)) (B64.Fin 0)
    then <[F_price := "Invalid price"]> e0 else e0 in
  let e2 :=
    if JS.falsy (weight st) || B64.le (B64.parseFloat (weight st)) (B64.Fin 0)
    then <[F_weight := "Invalid weight"]> e1 else e1 in
  let e3 :=
    if JS.falsy (minPercent st)
       || B64.lt (B64.parseInt (minPercent st)) (B64.Fin 0)
    then <[F_minPercent := "Invalid %"]> e2 else e2 in
  let e4 :=
    if JS.falsy (maxPercent st)
       || B64.lt (B64.parseInt (maxPercent st)) (B64.Fin 0)
    then <[F_maxPercent := "Invalid %"]> e3 else e3 in
  let e5 :=
    if B64.gt (B64.parseInt (minPercent st)) (B64.parseInt (maxPercent st))
    then <[F_maxPercent := "Max must be >= min"]> e4 else e4 in
  e5.

Definition validate (st : State) : bool * State :=
  let e := newErrors st in
  (Nat.eqb (size e) 0, setErrors e st).

(** [calculateAndSelect(selectedPercent)]: the state it leaves when it
    returns. *)
Definition calculateAndSelect (fuel : nat) (selectedPercent : option B64.number)
    (st : State) : outcome State :=
  let '(ok, st) := validate st in
  if negb ok then Returns (setSelectedResult None (setResults [] st))
  else
    let price := B64.parseFloat (price st) in
    let weight := B64.parseFloat (weight st) in
    let purityDecimal := B64.round (sweepDecimal (purity st)) in
    let min := B64.parseInt (minPercent st) in
    let max := B64.parseInt (maxPercent st) in
    match sweep fuel (resultAt price weight purityDecimal) min max [] with
    | Running => Running
    | Throws => Throws
    | Returns newResults =>
        let st := setResults newResults st in
        match selectedPercent with
        | Some target =>
            let resultToSelect :=
              find (fun r => B64.eqb (percent r) target) newResults in
            Returns (setSelectedResult
                       (match resultToSelect with
                        | Some r => Some r
                        | None => head newResults
                        end) st)
        | None => Returns (setSelectedResult (head newResults) st)
        end
    end.

(** [profit = selectedResult.total - results[0].total], under the guard
    [results.length > 1 && selectedResult]. *)
Definition profit (st : State) : option B64.number :=
  match results st, selectedResult st with
  | minResult :: _ :: _, Some sel =>
      Some (B64.sub (total sel) (total minResult))
  | _, _ => None
  end.

End Engine64.

Arguments mkState {SP} _ _ _ _ _ _ _ _.
Arguments price {SP} _.
Arguments weight {SP} _.
Arguments purity {SP} _.
Arguments minPercent {SP} _.
Arguments maxPercent {SP} _.
Arguments errors {SP} _.
Arguments results {SP} _.
Arguments selectedResult {SP} _.
Arguments setErrors {SP} _ _.
Arguments setResults {SP} _ _.
Arguments setSelectedResult {SP} _ _.
Arguments newErrors {SP} _.
Arguments validate {SP} _.
Arguments calculateAndSelect {SP} _ _ _ _.
Arguments profit {SP} _.

End Engine64.

(** Inputs of the binary64 sweep. *)
Module Scenario64.
Import Engine64.

(** Gold, 22K: price 7200, weight 10, purity 916, range 8 to 14. *)
Definition gold : State Gold.purity :=
  mkState "7200" "10" Gold.P916 "8" "14" ∅ [] None.





End Scenario64.

(** * Properties *)

(** ** The loop *)

Lemma sweep_spec body i maxP acc :
  sweep body i maxP acc = acc ++ (body <$> seqZ i (maxP + 1 - i)).
Proof.
  funelim (sweep body i maxP acc).
  - match goal with IH : _ = (_ ++ _) ++ _ |- _ => rewrite IH end.
    rewrite (seqZ_cons i) by lia. rewrite fmap_cons, <- app_assoc. simpl.
    by replace (Z.succ i) with (i + 1) by lia;
       replace (Z.pred (maxP + 1 - i)) with (maxP + 1 - (i + 1)) by lia.
  - rewrite seqZ_nil by lia. by rewrite app_nil_r.
Qed.

Lemma sweepRange_Int body a b :
  sweepRange body (JS.Int a) (JS.Int b) = body <$> seqZ a (b - a + 1).
Proof.
  unfold sweepRange. rewrite sweep_spec. simpl. f_equal. f_equal. lia.
Qed.

Lemma percent_resultAt p w d i : percent (resultAt p w d i) = i.
Proof. reflexivity. Qed.

Lemma percent_sweepRange p w d a b :
  percent <$> sweepRange (resultAt p w d) (JS.Int a) (JS.Int b)
  = seqZ a (b - a + 1).
Proof.
  rewrite sweepRange_Int, <- list_fmap_compose.
  induction (seqZ a (b - a + 1)) as [|i l IH]; [done|].
  rewrite fmap_cons, IH. reflexivity.
Qed.

(** Every result of a sweep is the loop body at its own percent, and that
    percent lies between the bounds. *)
Lemma elem_of_sweepRange body lo hi r :
  r ∈ sweepRange body lo hi →
  ∃ a b i, lo = JS.Int a ∧ hi = JS.Int b ∧ a <= i <= b ∧ r = body i.
Proof.
  destruct lo as [|a], hi as [|b]; simpl; try (intros H; by apply elem_of_nil in H).
  rewrite sweep_spec. simpl. rewrite list_elem_of_fmap.
  intros (i & -> & Hi). apply elem_of_seqZ in Hi.
  exists a, b, i. repeat split; try lia.
Qed.

(** ** Comparisons of the number model *)

Lemma Qltb_true x y : JS.Qltb x y = true ↔ (x < y)%Q.
Proof.
  unfold JS.Qltb. rewrite negb_true_iff, <- not_true_iff_false, Qle_bool_iff.
  split; [apply Qnot_le_lt | apply Qlt_not_le].
Qed.

Lemma le_true a b :
  JS.le a b = true ↔ ∃ x y, a = JS.Num x ∧ b = JS.Num y ∧ (x <= y)%Q.
Proof.
  destruct a as [|x], b as [|y]; simpl;
    try (split; [discriminate | by intros (? & ? & ? & ? & ?)]).
  rewrite Qle_bool_iff. split; [by exists x, y | by intros (? & ? & [= ->] & [= ->] & ?)].
Qed.

Lemma gt_true a b :
  JS.gt a b = true ↔ ∃ x y, a = JS.Num x ∧ b = JS.Num y ∧ (y < x)%Q.
Proof.
  destruct a as [|x], b as [|y]; simpl;
    try (split; [discriminate | by intros (? & ? & ? & ? & ?)]).
  rewrite Qltb_true. split; [by exists x, y | by intros (? & ? & [= ->] & [= ->] & ?)].
Qed.

Lemma ilt_true a b :
  JS.ilt a b = true ↔ ∃ x y, a = JS.Int x ∧ b = JS.Int y ∧ x < y.
Proof.
  destruct a as [|x], b as [|y]; simpl;
    try (split; [discriminate | by intros (? & ? & ? & ? & ?)]).
  rewrite Z.ltb_lt. split; [by exists x, y | by intros (? & ? & [= ->] & [= ->] & ?)].
Qed.

Lemma falsy_true s : JS.falsy s = true ↔ s = "".
Proof. by destruct s. Qed.

(** ** The validator *)

Ltac split_ifs :=
  repeat match goal with
         | |- context [if ?c then _ else _] => destruct c
         end.

Ltac lookup_errors :=
  repeat first
    [ rewrite lookup_insert_eq
    | rewrite lookup_insert_ne by discriminate
    | rewrite lookup_empty ].

Section Validator.
Context {P SP : Type}.
Implicit Types st : Engine.State P SP.
Import Engine.

Lemma validate_state st : (validate st).2 = setErrors (newErrors st) st.
Proof. reflexivity. Qed.

Lemma validate_ok st : (validate st).1 = true ↔ newErrors st = ∅.
Proof.
  unfold validate. simpl. rewrite Nat.eqb_eq. apply map_size_empty_iff.
Qed.

(** Which message each key of [newErrors] carries. *)
Lemma newErrors_lookup_price st :
  newErrors st !! F_price =
  if JS.falsy (price st) || JS.le (JS.parseFloat (price st)) (JS.Num 0)
  then Some "Invalid price" else None.
Proof. unfold newErrors. split_ifs; by lookup_errors. Qed.

Lemma newErrors_lookup_weight st :
  newErrors st !! F_weight =
  if JS.falsy (weight st) || JS.le (JS.parseFloat (weight st)) (JS.Num 0)
  then Some "Invalid weight" else None.
Proof. unfold newErrors. split_ifs; by lookup_errors. Qed.

Lemma newErrors_lookup_minPercent st :
  newErrors st !! F_minPercent =
  if JS.falsy (minPercent st)
     || JS.ilt (JS.parseInt (minPercent st)) (JS.Int 0)
  then Some "Invalid %" else None.
Proof. unfold newErrors. split_ifs; by lookup_errors. Qed.

(** The [maxPercent] key carries the message of the last test that fired. *)
Lemma newErrors_lookup_maxPercent st :
  newErrors st !! F_maxPercent =
  if JS.igt (JS.parseInt (minPercent st)) (JS.parseInt (maxPercent st))
  then Some "Max must be >= min"
  else if JS.falsy (maxPercent st)
          || JS.ilt (JS.parseInt (maxPercent st)) (JS.Int 0)
       then Some "Invalid %" else None.
Proof. unfold newErrors. split_ifs; by lookup_errors. Qed.

(** When the price is flagged: on an empty text and on a text that parses
    to a number [<= 0], and on nothing else. *)
Lemma newErrors_price st :
  newErrors st !! F_price = Some "Invalid price" ↔
  price st = "" ∨ ∃ q, JS.parseFloat (price st) = JS.Num q ∧ (q <= 0)%Q.
Proof.
  rewrite newErrors_lookup_price.
  destruct (_ || _) eqn:Hc.
  - apply orb_true_iff in Hc as [Hc|Hc].
    + apply falsy_true in Hc. naive_solver.
    + apply le_true in Hc as (x & y & Hx & [= <-] & Hxy). naive_solver.
  - apply orb_false_iff in Hc as [Hf Hle]. split; [done|].
    intros [E|(q & Hq & Hq')].
    + apply falsy_true in E. congruence.
    + rewrite Hq in Hle. simpl in Hle. apply Qle_bool_iff in Hq'. congruence.
Qed.

Lemma newErrors_weight st :
  newErrors st !! F_weight = Some "Invalid weight" ↔
  weight st = "" ∨ ∃ q, JS.parseFloat (weight st) = JS.Num q ∧ (q <= 0)%Q.
Proof.
  rewrite newErrors_lookup_weight.
  destruct (_ || _) eqn:Hc.
  - apply orb_true_iff in Hc as [Hc|Hc].
    + apply falsy_true in Hc. naive_solver.
    + apply le_true in Hc as (x & y & Hx & [= <-] & Hxy). naive_solver.
  - apply orb_false_iff in Hc as [Hf Hle]. split; [done|].
    intros [E|(q & Hq & Hq')].
    + apply falsy_true in E. congruence.
    + rewrite Hq in Hle. simpl in Hle. apply Qle_bool_iff in Hq'. congruence.
Qed.

Lemma newErrors_minPercent st :
  newErrors st !! F_minPercent = Some "Invalid %" ↔
  minPercent st = "" ∨ ∃ z, JS.parseInt (minPercent st) = JS.Int z ∧ z < 0.
Proof.
  rewrite newErrors_lookup_minPercent.
  destruct (_ || _) eqn:Hc.
  - apply orb_true_iff in Hc as [Hc|Hc].
    + apply falsy_true in Hc. naive_solver.
    + apply ilt_true in Hc as (x & y & Hx & [= <-] & Hxy). naive_solver.
  - apply orb_false_iff in Hc as [Hf Hlt]. split; [done|].
    intros [E|(z & Hz & Hz')].
    + apply falsy_true in E. congruence.
    + rewrite Hz in Hlt. simpl in Hlt. lia.
Qed.

Lemma newErrors_empty st :
  newErrors st = ∅ ↔ ∀ f, newErrors st !! f = None.
Proof.
  split; [by intros -> | intros H; by apply map_eq].
Qed.

(** What a passed validation says about the two bounds. *)
Lemma validated_bounds st a b :
  newErrors st = ∅ →
  JS.parseInt (minPercent st) = JS.Int a →
  JS.parseInt (maxPercent st) = JS.Int b →
  0 <= a <= b.
Proof.
  intros He Ha Hb.
  pose proof (newErrors_lookup_maxPercent st) as Hmax.
  rewrite He, lookup_empty, Ha, Hb in Hmax. simpl in Hmax.
  destruct (b <? a) eqn:Hba; [done|]. apply Z.ltb_ge in Hba.
  destruct (decide (a < 0)) as [Hneg|]; [|lia].
  assert (newErrors st !! F_minPercent = Some "Invalid %") as Hmin.
  { apply newErrors_minPercent. right. by exists a. }
  by rewrite He in Hmin.
Qed.

End Validator.

(** ** The sweep of [calculateAndSelect] *)

Section Sweep.
Context {P SP : Type}.
Variable sweepDecimal : SP → Q.
Implicit Types st : Engine.State P SP.
Import Engine.

(** The list handed to [setResults]. *)
Lemma results_calculateAndSelect sel st :
  results (calculateAndSelect sweepDecimal sel st) =
  if (validate st).1
  then sweepRange
         (resultAt (JS.parseFloat (price st)) (JS.parseFloat (weight st))
            (sweepDecimal (purity st)))
         (JS.parseInt (minPercent st)) (JS.parseInt (maxPercent st))
  else [].
Proof.
  unfold calculateAndSelect. destruct (validate st) as [ok st1] eqn:Hv.
  assert (st1 = setErrors (newErrors st) st) as ->
    by (unfold validate in Hv; congruence).
  destruct ok; simpl; [|done]. by destruct sel.
Qed.

(** The value handed to [setSelectedResult]. *)
Lemma selectedResult_calculateAndSelect sel st :
  let rs := results (calculateAndSelect sweepDecimal sel st) in
  selectedResult (calculateAndSelect sweepDecimal sel st) =
  match sel with
  | Some target =>
      match find (fun r => percent r =? target) rs with
      | Some r => Some r
      | None => head rs
      end
  | None => head rs
  end.
Proof.
  unfold calculateAndSelect. destruct (validate st) as [ok st1] eqn:Hv.
  destruct ok; simpl; by destruct sel.
Qed.

Lemma elem_of_results sel st r :
  r ∈ results (calculateAndSelect sweepDecimal sel st) →
  ∃ a b,
    (validate st).1 = true ∧
    JS.parseInt (minPercent st) = JS.Int a ∧
    JS.parseInt (maxPercent st) = JS.Int b ∧
    a <= percent r <= b ∧
    r = resultAt (JS.parseFloat (price st)) (JS.parseFloat (weight st))
          (sweepDecimal (purity st)) (percent r).
Proof.
  rewrite results_calculateAndSelect.
  destruct (validate st).1; [|by intros ?%elem_of_nil].
  intros (a & b & i & Ha & Hb & Hi & ->)%elem_of_sweepRange.
  exists a, b. by rewrite percent_resultAt.
Qed.

(** The percents of the results, in their order, on a validated input
    whose bounds are integers. *)
Lemma percent_results sel st a b :
  (validate st).1 = true →
  JS.parseInt (minPercent st) = JS.Int a →
  JS.parseInt (maxPercent st) = JS.Int b →
  percent <$> results (calculateAndSelect sweepDecimal sel st)
  = seqZ a (b - a + 1).
Proof.
  intros Hv Ha Hb. rewrite results_calculateAndSelect, Hv, Ha, Hb.
  apply percent_sweepRange.
Qed.

Lemma head_results sel st a b first :
  (validate st).1 = true →
  JS.parseInt (minPercent st) = JS.Int a →
  JS.parseInt (maxPercent st) = JS.Int b →
  head (results (calculateAndSelect sweepDecimal sel st)) = Some first →
  percent first = a.
Proof.
  intros Hv Ha Hb [l Hl]%head_Some.
  pose proof (percent_results sel st a b Hv Ha Hb) as Hps.
  rewrite Hl, fmap_cons in Hps.
  destruct (decide (0 < b - a + 1)) as [Hpos|Hneg].
  - rewrite seqZ_cons in Hps by done. congruence.
  - rewrite seqZ_nil in Hps by lia. done.
Qed.

(** A result of the sweep is fixed by its percent. *)
Lemma results_same_percent sel st r1 r2 :
  r1 ∈ results (calculateAndSelect sweepDecimal sel st) →
  r2 ∈ results (calculateAndSelect sweepDecimal sel st) →
  percent r1 = percent r2 → r1 = r2.
Proof.
  intros (? & ? & _ & _ & _ & _ & H1)%elem_of_results
    (? & ? & _ & _ & _ & _ & H2)%elem_of_results Hp.
  rewrite H1, H2. by rewrite Hp.
Qed.

(** [find] by percent returns the result that has this percent. *)
Lemma find_results sel st target r :
  r ∈ results (calculateAndSelect sweepDecimal sel st) →
  percent r = target →
  find (fun r => percent r =? target)
    (results (calculateAndSelect sweepDecimal sel st)) = Some r.
Proof.
  intros Hr Hp.
  destruct (find _ _) as [r'|] eqn:Hf.
  - apply find_some in Hf as [Hin Hp']. apply Z.eqb_eq in Hp'.
    apply list_elem_of_In in Hin.
    f_equal. apply (results_same_percent sel st); [done..|congruence].
  - apply list_elem_of_In in Hr.
    apply (find_none _ _ Hf) in Hr. apply Z.eqb_neq in Hr. done.
Qed.

(** The selection is always one of the results. *)
Lemma selectedResult_elem_of sel st r :
  selectedResult (calculateAndSelect sweepDecimal sel st) = Some r →
  r ∈ results (calculateAndSelect sweepDecimal sel st).
Proof.
  pose proof (selectedResult_calculateAndSelect sel st) as Hsel.
  cbn zeta in Hsel. rewrite Hsel. clear Hsel.
  destruct sel as [target|].
  - destruct (find _ _) as [r'|] eqn:Hf.
    + intros [= ->]. apply find_some in Hf as [Hin _].
      by apply list_elem_of_In.
    + apply head_Some_elem_of.
  - apply head_Some_elem_of.
Qed.

(** On a validated input, a target inside the range is selected, and with
    no target the selection is the result at the lower bound. *)
Lemma selectedResult_in_range sel st a b k :
  (validate st).1 = true →
  JS.parseInt (minPercent st) = JS.Int a →
  JS.parseInt (maxPercent st) = JS.Int b →
  a <= k <= b →
  sel = Some k ∨ (sel = None ∧ k = a) →
  ∃ r, selectedResult (calculateAndSelect sweepDecimal sel st) = Some r ∧
       percent r = k.
Proof.
  intros Hv Ha Hb Hin Hsel.
  pose proof (percent_results sel st a b Hv Ha Hb) as Hps.
  rewrite selectedResult_calculateAndSelect.
  destruct Hsel as [->|[-> ->]].
  - assert (k ∈ percent <$> results
                  (calculateAndSelect sweepDecimal (Some k) st)) as Hk
      by (rewrite Hps; apply elem_of_seqZ; lia).
    apply list_elem_of_fmap in Hk as (r & -> & Hr).
    exists r. by rewrite (find_results (Some (percent r)) st (percent r) r).
  - destruct (results _) as [|r l].
    + rewrite seqZ_cons in Hps by lia. done.
    + rewrite fmap_cons, seqZ_cons in Hps by lia. injection Hps as Hp _.
      by exists r.
Qed.

(** C5.  In one sweep every result carries the same [purityValue], the one
    fixed by weight, purity and price; a result is the loop body at its own
    percent, so two results of one sweep differ only where their percents
    do. *)
Theorem purityValue_constant sel st :
  let rs := results (calculateAndSelect sweepDecimal sel st) in
  let pv :=
    JS.mul (JS.mul (JS.parseFloat (weight st))
                   (JS.Num (sweepDecimal (purity st))))
           (JS.parseFloat (price st)) in
  Forall (fun r => purityValue r = pv) rs ∧
  (∀ r1 r2, r1 ∈ rs → r2 ∈ rs → purityValue r1 = purityValue r2) ∧
  (∀ r1 r2, r1 ∈ rs → r2 ∈ rs → percent r1 = percent r2 → r1 = r2).
Proof.
  intros rs pv.
  assert (∀ r, r ∈ rs → purityValue r = pv) as Hpv.
  { intros r (a & b & _ & _ & _ & _ & Hr)%elem_of_results. by rewrite Hr. }
  split_and!.
  - by apply Forall_forall.
  - intros r1 r2 H1 H2. by rewrite (Hpv r1), (Hpv r2).
  - apply results_same_percent.
Qed.

(** The guarded division of the loop body, on any price and weight. *)
Lemma wastageInGrams_resultAt pr w d i :
  let r := resultAt pr w d i in
  let rate := JS.mul pr (JS.Num d) in
  (JS.gt rate (JS.Num 0) = true →
   ∃ q, rate = JS.Num q ∧ (0 < q)%Q ∧ Qeq_bool q 0 = false ∧
        wastageInGrams r = JS.div (wastageValue r) rate ∧
        ∀ v, wastageValue r = JS.Num v → wastageInGrams r = JS.Num (v / q)) ∧
  (JS.gt rate (JS.Num 0) = false → wastageInGrams r = JS.Num 0).
Proof.
  intros r rate. subst r. unfold resultAt. cbn [wastageInGrams wastageValue].
  fold rate. split; intros Hg; rewrite Hg; [|done].
  apply gt_true in Hg as (q & z & Hq & [= <-] & Hpos).
  assert (Qeq_bool q 0 = false) as Hnz.
  { apply not_true_iff_false. intros E%Qeq_bool_iff.
    rewrite E in Hpos. by apply Qlt_irrefl in Hpos. }
  exists q. split_and!; try done.
  intros v Hv. rewrite Hv, Hq. simpl. by rewrite Hnz.
Qed.

(** C6.  The wastage in grams is the wastage value divided by the rate
    [price * purityDecimal] when that rate is [> 0], and then the divisor is
    a number other than zero; in every other case, a [NaN] rate included, it
    is 0.  This holds of the loop body on any price and weight, and so of
    every result of the sweep. *)
Theorem wastageInGrams_guarded :
  (∀ pr w d i,
     let r := resultAt pr w d i in
     let rate := JS.mul pr (JS.Num d) in
     (JS.gt rate (JS.Num 0) = true →
      ∃ q, rate = JS.Num q ∧ (0 < q)%Q ∧ Qeq_bool q 0 = false ∧
           wastageInGrams r = JS.div (wastageValue r) rate ∧
           ∀ v, wastageValue r = JS.Num v →
                wastageInGrams r = JS.Num (v / q)) ∧
     (JS.gt rate (JS.Num 0) = false → wastageInGrams r = JS.Num 0)) ∧
  (∀ sel st r,
     r ∈ results (calculateAndSelect sweepDecimal sel st) →
     let rate :=
       JS.mul (JS.parseFloat (price st)) (JS.Num (sweepDecimal (purity st))) in
     wastageInGrams r =
     if JS.gt rate (JS.Num 0) then JS.div (wastageValue r) rate else JS.Num 0).
Proof.
  split; [apply wastageInGrams_resultAt|].
  intros sel st r (a & b & _ & _ & _ & _ & Hr)%elem_of_results rate.
  by rewrite Hr.
Qed.

(** C8.  After [calculateAndSelect(target)] the selection is the result
    whose percent is the target; with no such result it is the first
    result; with no result at all it is none. *)
Theorem selection_by_target target st :
  let st' := calculateAndSelect sweepDecimal (Some target) st in
  (∀ r, r ∈ results st' → percent r = target →
        selectedResult st' = Some r) ∧
  ((∀ r, r ∈ results st' → percent r ≠ target) →
   selectedResult st' = head (results st')) ∧
  (results st' = [] → selectedResult st' = None).
Proof.
  intros st'. subst st'.
  pose proof (selectedResult_calculateAndSelect (Some target) st) as Hsel.
  cbn zeta in Hsel. rewrite Hsel. clear Hsel.
  split_and!.
  - intros r Hr Hp. by rewrite (find_results (Some target) st target r).
  - intros Hne. destruct (find _ _) as [r'|] eqn:Hf; [|done].
    apply find_some in Hf as [Hin Hp']. apply Z.eqb_eq in Hp'.
    apply list_elem_of_In in Hin. by apply Hne in Hin.
  - by intros ->.
Qed.

End Sweep.

(** ** The saved calculations *)

Section Store.
Context {P SP : Type}.
Variable savedPurity : SP → P.
Implicit Types st : Engine.State P SP.
Import Engine.

Lemma savedCalculations_handleSave now st :
  savedCalculations (handleSave savedPurity now st) =
  if (validate st).1
  then {| p_id := now;
          p_price := price st; p_weight := weight st;
          p_purity := savedPurity (purity st);
          p_minPercent := minPercent st; p_maxPercent := maxPercent st;
          p_selectedPercent := percent <$> selectedResult st |}
       :: take 9 (savedCalculations st)
  else savedCalculations st.
Proof.
  unfold handleSave. destruct (validate st) as [ok st1] eqn:Hv.
  assert (st1 = setErrors (newErrors st) st) as ->
    by (unfold validate in Hv; congruence).
  by destruct ok.
Qed.

Lemma savedCalculations_deleteCalculation id st :
  savedCalculations (deleteCalculation id st) =
  filter (fun c => p_id c ≠ id) (savedCalculations st).
Proof. reflexivity. Qed.

Lemma handleSave_capacity now st :
  (length (savedCalculations st) <= 10)%nat →
  (length (savedCalculations (handleSave savedPurity now st)) <= 10)%nat.
Proof.
  intros Hle. rewrite savedCalculations_handleSave.
  destruct (validate st).1; [|done]. simpl. rewrite length_take. lia.
Qed.

Lemma deleteCalculation_capacity id st :
  (length (savedCalculations st) <= 10)%nat →
  (length (savedCalculations (deleteCalculation id st)) <= 10)%nat.
Proof.
  intros Hle. rewrite savedCalculations_deleteCalculation.
  etrans; [apply length_filter|done].
Qed.

Lemma reachable_capacity st :
  reachable savedPurity st → (length (savedCalculations st) <= 10)%nat.
Proof.
  induction 1 as [st Hst|now st _ IH|id st _ IH|st st' _ IH Heq].
  - rewrite Hst. simpl. lia.
  - by apply handleSave_capacity.
  - by apply deleteCalculation_capacity.
  - by rewrite Heq.
Qed.

(** C7.  A component mounted over an empty store never holds more than 10
    saved calculations; [handleSave] and [deleteCalculation] keep a store of
    at most 10 within 10; a save that passes validation puts the new entry
    at index 0 in front of the first 9 old ones; and on a store of 10 it
    drops the last entry and nothing else. *)
Theorem store_capacity :
  (∀ st, reachable savedPurity st →
         (length (savedCalculations st) <= 10)%nat) ∧
  (∀ now id st,
     (length (savedCalculations st) <= 10)%nat →
     (length (savedCalculations (handleSave savedPurity now st)) <= 10)%nat ∧
     (length (savedCalculations (deleteCalculation id st)) <= 10)%nat) ∧
  (∀ now st,
     (validate st).1 = true →
     ∃ newSave,
       p_id newSave = now ∧
       savedCalculations (handleSave savedPurity now st) !! 0%nat
       = Some newSave ∧
       savedCalculations (handleSave savedPurity now st)
       = newSave :: take 9 (savedCalculations st)) ∧
  (∀ now st,
     (validate st).1 = true →
     length (savedCalculations st) = 10%nat →
     ∃ newSave kept oldest,
       savedCalculations st = kept ++ [oldest] ∧
       savedCalculations (handleSave savedPurity now st) = newSave :: kept ∧
       length (savedCalculations (handleSave savedPurity now st)) = 10%nat).
Proof.
  split_and!.
  - apply reachable_capacity.
  - intros now id st Hle. split.
    + by apply handleSave_capacity.
    + by apply deleteCalculation_capacity.
  - intros now st Hv. rewrite savedCalculations_handleSave, Hv.
    eexists (mkParams now _ _ _ _ _ _). split_and!; reflexivity.
  - intros now st Hv Hlen. rewrite savedCalculations_handleSave, Hv.
    destruct (savedCalculations st) as [|c l] using rev_ind; [done|].
    rewrite length_app in Hlen. simpl in Hlen.
    eexists _, l, c. split_and!; [done| |].
    + f_equal. apply take_app_length'. lia.
    + rewrite length_cons, length_take, length_app. simpl length. lia.
Qed.

End Store.

(** ** Replay against sweep *)

Section Replay.
Context {P SP : Type}.
Variable replayDecimal : P → Q.
Variable sweepDecimal : SP → Q.
Variable loadPurity : P → SP → SP.
Implicit Types st : Engine.State P SP.
Implicit Types c : Engine.CalculationParams P.
Import Engine.

(** The two purity decimals of a component agree. *)
Hypothesis same_decimal :
  ∀ p s, sweepDecimal (loadPurity p s) = replayDecimal p.

(** Loading a saved calculation runs the sweep on its fields with its
    selected percent as the target. *)
Lemma loadRequestEffect_loadCalculation c st :
  loadRequestEffect sweepDecimal (loadCalculation loadPurity c st)
  = setLoadRequest None
      (calculateAndSelect sweepDecimal (p_selectedPercent c)
         (loadCalculation loadPurity c st)).
Proof. reflexivity. Qed.

(** In a component whose two decimals agree, the total of
    [calculateTotalFromParams] is the [total] of the result that the sweep
    over the loaded calculation produces at the replay percent. *)
Lemma replay_matches_sweep c st r :
  r ∈ results (calculateAndSelect sweepDecimal (p_selectedPercent c)
                 (loadCalculation loadPurity c st)) →
  replayPercent c = JS.Int (percent r) →
  total r = calculateTotalFromParams replayDecimal c.
Proof.
  intros (a & b & _ & _ & _ & _ & Hr)%elem_of_results Hk.
  rewrite Hr. unfold calculateTotalFromParams, resultAt. rewrite Hk.
  cbn [total loadCalculation price weight purity]. by rewrite same_decimal.
Qed.

(** And that result is there, and is the selection, when the loaded
    calculation passes validation and the replay percent lies in its range. *)
Lemma replay_matches_selection c st a b k :
  (validate (loadCalculation loadPurity c st)).1 = true →
  JS.parseInt (p_minPercent c) = JS.Int a →
  JS.parseInt (p_maxPercent c) = JS.Int b →
  replayPercent c = JS.Int k →
  a <= k <= b →
  ∃ r,
    selectedResult (calculateAndSelect sweepDecimal (p_selectedPercent c)
                      (loadCalculation loadPurity c st)) = Some r ∧
    percent r = k ∧
    total r = calculateTotalFromParams replayDecimal c.
Proof.
  intros Hv Ha Hb Hk Hin.
  destruct (selectedResult_in_range sweepDecimal (p_selectedPercent c)
              (loadCalculation loadPurity c st) a b k Hv Ha Hb Hin)
    as (r & Hsel & Hp).
  { unfold replayPercent in Hk.
    destruct (p_selectedPercent c); [left; congruence|right].
    split; [done|congruence]. }
  exists r. split_and!; [done..|].
  apply (replay_matches_sweep c st).
  - by apply selectedResult_elem_of.
  - by rewrite Hp.
Qed.

End Replay.

Lemma Gold_replay_matches_sweep (c : Gold.CalculationParams) st r :
  r ∈ Engine.results (Gold.calculateAndSelect (Engine.p_selectedPercent c)
                        (Gold.loadCalculation c st)) →
  Engine.replayPercent c = JS.Int (percent r) →
  total r = Gold.calculateTotalFromParams c.
Proof. by apply replay_matches_sweep. Qed.

Lemma Silver_replay_matches_sweep (c : Silver.CalculationParams) st r :
  r ∈ Engine.results (Silver.calculateAndSelect (Engine.p_selectedPercent c)
                        (Silver.loadCalculation c st)) →
  Engine.replayPercent c = JS.Int (percent r) →
  total r = Silver.calculateTotalFromParams c.
Proof. by apply replay_matches_sweep. Qed.

(** C1.  In the silver calculator fixed to purity 999 the replay total and
    the sweep total differ.  The saved calculation with price 85, weight 50,
    range 8 to 15 and the 8% result selected has numeric fields that parse
    and passes validation once loaded; the sweep over it selects the 8%
    result, whose total is 4590; [calculateTotalFromParams] answers
    4585.75. *)
Theorem replay_diverges_from_sweep_fixed999 :
  let c := Scenario.silverSave in
  let st := Silver999.loadCalculation c Silver999.initial in
  let st' := Silver999.calculateAndSelect (Engine.p_selectedPercent c) st in
  JS.parseFloat (Engine.p_price c) = JS.Num 85 ∧
  JS.parseFloat (Engine.p_weight c) = JS.Num 50 ∧
  JS.parseInt (Engine.p_minPercent c) = JS.Int 8 ∧
  JS.parseInt (Engine.p_maxPercent c) = JS.Int 15 ∧
  Engine.replayPercent c = JS.Int 8 ∧
  (Silver999.validate st).1 = true ∧
  Engine.loadRequestEffect Silver999.purityDecimal st
  = Engine.setLoadRequest None st' ∧
  ∃ r,
    Engine.selectedResult st' = Some r ∧
    percent r = 8 ∧
    JS.eqb (total r) (JS.Num 4590) = true ∧
    JS.eqb (Silver999.calculateTotalFromParams c) (JS.Num 4585.75) = true ∧
    JS.eqb (Silver999.calculateTotalFromParams c) (total r) = false.
Proof.
  cbn zeta. do 7 (split; [reflexivity|]).
  eexists. split; [vm_compute; reflexivity|]. by vm_compute.
Qed.

(** C2.  The validator does not flag the text [abc]: with [abc] in all four
    numeric fields of the gold form, [parseFloat] and [parseInt] answer
    [NaN], no test of [validate] fires, the errors are empty and the answer
    is [true]; with [abc] as the price alone, the sweep then runs and every
    total it returns is [NaN]. *)
Theorem validate_accepts_non_numeric_text :
  JS.parseFloat "abc" = JS.NaN ∧
  JS.parseInt "abc" = JS.INaN ∧
  (Gold.validate Scenario.goldAbc).1 = true ∧
  Engine.errors (Gold.validate Scenario.goldAbc).2 = ∅ ∧
  (Gold.validate Scenario.goldAbcPrice).1 = true ∧
  Engine.errors (Gold.validate Scenario.goldAbcPrice).2 !! F_price = None ∧
  total <$> Engine.results (Gold.calculateAndSelect None Scenario.goldAbcPrice)
  = replicate 7 JS.NaN.
Proof. by vm_compute. Qed.

(** ** The general statements on the inputs of [Scenario] *)

Lemma purityValue_constant_witness :
  let rs := Engine.results (Gold.calculateAndSelect None Scenario.gold) in
  ∃ r1 r2,
    rs !! 0%nat = Some r1 ∧ rs !! 6%nat = Some r2 ∧
    percent r1 = 8 ∧ percent r2 = 14 ∧
    purityValue r1 = purityValue r2.
Proof.
  cbn zeta. eexists _, _.
  split; [vm_compute; reflexivity|]. split; [vm_compute; reflexivity|].
  split; [reflexivity|]. split; [reflexivity|].
  apply (purityValue_constant Gold.purityDecimal None Scenario.gold).
  - apply list_elem_of_lookup. exists 0%nat. vm_compute. reflexivity.
  - apply list_elem_of_lookup. exists 6%nat. vm_compute. reflexivity.
Defined.

Lemma wastageInGrams_guarded_witness :
  (let r := resultAt (JS.Num 7200) (JS.Num 10) 0.92 8 in
   let rate := JS.mul (JS.Num 7200) (JS.Num 0.92) in
   JS.gt rate (JS.Num 0) = true ∧
   ∃ q, rate = JS.Num q ∧ (0 < q)%Q ∧ Qeq_bool q 0 = false ∧
        wastageInGrams r = JS.div (wastageValue r) rate ∧
        ∀ v, wastageValue r = JS.Num v → wastageInGrams r = JS.Num (v / q)) ∧
  (let r := resultAt JS.NaN (JS.Num 10) 0.92 8 in
   let rate := JS.mul JS.NaN (JS.Num 0.92) in
   JS.gt rate (JS.Num 0) = false ∧ wastageInGrams r = JS.Num 0) ∧
  (∃ r,
     Engine.results (Gold.calculateAndSelect None Scenario.gold) !! 0%nat
     = Some r ∧
     wastageInGrams r
     = JS.div (wastageValue r) (JS.mul (JS.Num 7200) (JS.Num 0.92))).
Proof.
  split; [|split]; cbn zeta;
    [| |eexists; split; [vm_compute; reflexivity|];
        apply (proj2 (wastageInGrams_guarded (P:=Gold.purity)
                        (SP:=Gold.purity) Gold.purityDecimal)
                 None Scenario.gold);
        apply list_elem_of_lookup; exists 0%nat; vm_compute; reflexivity].
  - split; [reflexivity|].
    apply (proj1 (proj1 (wastageInGrams_guarded (P:=Gold.purity)
                           (SP:=Gold.purity) Gold.purityDecimal)
                    (JS.Num 7200) (JS.Num 10) 0.92%Q 8)).
    reflexivity.
  - split; [reflexivity|].
    apply (proj2 (proj1 (wastageInGrams_guarded (P:=Gold.purity)
                           (SP:=Gold.purity) Gold.purityDecimal)
                    JS.NaN (JS.Num 10) 0.92%Q 8)).
    reflexivity.
Defined.

Lemma store_capacity_witness :
  let st := Scenario.goldFull in
  (Engine.validate st).1 = true ∧
  length (Engine.savedCalculations st) = 10%nat ∧
  (length (Engine.savedCalculations (Gold.handleSave "11" st)) <= 10)%nat ∧
  (length (Engine.savedCalculations (Gold.deleteCalculation "3" st)) <= 10)%nat ∧
  (∃ newSave,
     Engine.p_id newSave = "11" ∧
     Engine.savedCalculations (Gold.handleSave "11" st) !! 0%nat
     = Some newSave ∧
     Engine.savedCalculations (Gold.handleSave "11" st)
     = newSave :: take 9 (Engine.savedCalculations st)) ∧
  (∃ newSave kept oldest,
     Engine.savedCalculations st = kept ++ [oldest] ∧
     Engine.savedCalculations (Gold.handleSave "11" st) = newSave :: kept ∧
     length (Engine.savedCalculations (Gold.handleSave "11" st)) = 10%nat) ∧
  (length (Engine.savedCalculations
             (Gold.handleSave "1" (Gold.deleteCalculation "0" Gold.initial)))
   <= 10)%nat.
Proof.
  cbn zeta.
  destruct (store_capacity (fun p : Gold.purity => p)) as (Hr & Hp & Hn & He).
  split; [reflexivity|]. split; [reflexivity|].
  split; [apply (Hp "11" "3" Scenario.goldFull); vm_compute; lia|].
  split; [apply (Hp "11" "3" Scenario.goldFull); vm_compute; lia|].
  split; [apply (Hn "11" Scenario.goldFull); reflexivity|].
  split; [apply (He "11" Scenario.goldFull); reflexivity|].
  apply Hr. apply Engine.reach_save, Engine.reach_delete, Engine.reach_mount.
  reflexivity.
Defined.

Lemma selection_by_target_witness :
  (let st' := Gold.calculateAndSelect (Some 10) Scenario.gold in
   ∃ r, Engine.results st' !! 2%nat = Some r ∧ percent r = 10 ∧
        Engine.selectedResult st' = Some r) ∧
  (let st' := Gold.calculateAndSelect (Some 99) Scenario.gold in
   Forall (fun r => percent r ≠ 99) (Engine.results st') ∧
   Engine.selectedResult st' = head (Engine.results st')) ∧
  (let st' := Gold.calculateAndSelect (Some 8) Scenario.goldAbc in
   Engine.results st' = [] ∧ Engine.selectedResult st' = None).
Proof.
  cbn zeta. split_and!.
  - eexists. split; [vm_compute; reflexivity|]. split; [reflexivity|].
    apply (selection_by_target Gold.purityDecimal 10 Scenario.gold);
      [|reflexivity].
    apply list_elem_of_lookup. exists 2%nat. vm_compute. reflexivity.
  - apply (bool_decide_unpack _). vm_compute. exact I.
  - apply (selection_by_target Gold.purityDecimal 99 Scenario.gold).
    apply Forall_forall. apply (bool_decide_unpack _). vm_compute. exact I.
  - reflexivity.
  - apply (selection_by_target Gold.purityDecimal 8 Scenario.goldAbc).
    reflexivity.
Defined.

(** * The binary64 sweep

    ** Rounding *)

Section Rounding.
Import B64.
Local Open Scope Q_scope.

Lemma B64_pow2_pos e : 0 < pow2 e.
Proof. apply Qpower_0_lt. reflexivity. Qed.

Lemma B64_pow2_plus a b : pow2 (a + b) == pow2 a * pow2 b.
Proof. apply Qpower_plus. discriminate. Qed.

Lemma B64_pow2_le a b : (a <= b)%Z → pow2 a <= pow2 b.
Proof. intros H. apply Qpower_le_compat_l; [done|]. discriminate. Qed.

Lemma B64_pow2_Z e : (0 <= e)%Z → pow2 e == inject_Z (2 ^ e).
Proof. intros H. unfold pow2. by rewrite Zpower_Qpower. Qed.

Lemma B64_pow2_cancel e : pow2 (- e) * pow2 e == 1.
Proof. rewrite <- B64_pow2_plus. by replace (- e + e)%Z with 0%Z by lia. Qed.

(** Rounding to the nearest integer, ties to even. *)
Lemma B64_rne_Z n : rne (inject_Z n) = n.
Proof.
  unfold rne. rewrite Qfloor_Z.
  replace (inject_Z n - inject_Z n ?= 1 # 2) with Lt; [done|].
  symmetry. rewrite <- Qlt_alt. generalize (inject_Z n). intros q. lra.
Qed.

Lemma B64_rne_bounds y : (Qfloor y <= rne y <= Qfloor y + 1)%Z.
Proof. unfold rne. destruct (_ ?= _); [destruct (Z.even _)|..]; lia. Qed.

Lemma B64_rne_mono x y : x <= y → (rne x <= rne y)%Z.
Proof.
  intros Hxy. pose proof (Qfloor_resp_le _ _ Hxy) as Hf.
  pose proof (B64_rne_bounds x). pose proof (B64_rne_bounds y).
  destruct (decide (Qfloor x < Qfloor y)%Z) as [|Hge]; [lia|].
  assert (Qfloor y = Qfloor x) as E by lia.
  unfold rne. rewrite E.
  destruct (Qcompare_spec (x - inject_Z (Qfloor x)) (1 # 2));
    destruct (Qcompare_spec (y - inject_Z (Qfloor x)) (1 # 2));
    try destruct (Z.even _); try lia; lra.
Qed.

Lemma B64_rne_proper x y : x == y → rne x = rne y.
Proof.
  intros E. apply Z.le_antisymm; apply B64_rne_mono; rewrite E; apply Qle_refl.
Qed.

Lemma B64_rne_nonneg y : 0 <= y → (0 <= rne y)%Z.
Proof. intros H. rewrite <- (B64_rne_Z 0). by apply B64_rne_mono. Qed.

(** The binary logarithm of a positive rational. *)
Lemma B64_ilog2_spec x : 0 < x → pow2 (ilog2 x) <= x ∧ x < pow2 (ilog2 x + 1).
Proof.
  destruct x as [n d]. intros Hn.
  assert (0 < n)%Z as Hn' by (unfold Qlt in Hn; simpl in Hn; lia).
  clear Hn. rename Hn' into Hn.
  unfold ilog2. cbn [Qnum Qden].
  set (k := (Z.log2 n - Z.log2 (Z.pos d))%Z).
  pose proof (Z.log2_spec n Hn) as [Hn1 Hn2].
  pose proof (Z.log2_spec (Z.pos d) ltac:(lia)) as [Hd1 Hd2].
  pose proof (Z.log2_nonneg n). pose proof (Z.log2_nonneg (Z.pos d)).
  set (ln := Z.log2 n) in *. set (ld := Z.log2 (Z.pos d)) in *.
  assert (n # d == inject_Z n / inject_Z (Z.pos d)) as Ex by apply Qmake_Qdiv.
  assert (0 < inject_Z (Z.pos d)) as Hdpos by (by rewrite <- (Zlt_Qlt 0)).
  assert (inject_Z (2 ^ ln) <= inject_Z n) as Qn1 by (by rewrite <- Zle_Qle).
  assert (inject_Z n < inject_Z (2 ^ Z.succ ln)) as Qn2 by (by rewrite <- Zlt_Qlt).
  assert (inject_Z (2 ^ ld) <= inject_Z (Z.pos d)) as Qd1 by (by rewrite <- Zle_Qle).
  assert (inject_Z (Z.pos d) < inject_Z (2 ^ Z.succ ld)) as Qd2 by (by rewrite <- Zlt_Qlt).
  rewrite <- !B64_pow2_Z in Qn1, Qn2, Qd1, Qd2 by lia.
  assert (pow2 (Z.succ ln) == 2 * pow2 ln) as E1.
  { replace (Z.succ ln) with (1 + ln)%Z by lia. by rewrite B64_pow2_plus. }
  assert (pow2 (Z.succ ld) == 2 * pow2 ld) as E2.
  { replace (Z.succ ld) with (1 + ld)%Z by lia. by rewrite B64_pow2_plus. }
  assert (pow2 ln == pow2 k * pow2 ld) as E3.
  { rewrite <- B64_pow2_plus. by replace (k + ld)%Z with ln by lia. }
  assert (pow2 (k + 1) == 2 * pow2 k) as E4.
  { replace (k + 1)%Z with (1 + k)%Z by lia. by rewrite B64_pow2_plus. }
  assert (pow2 k == 2 * pow2 (k - 1)) as E5.
  { replace k with (1 + (k - 1))%Z at 1 by lia. by rewrite B64_pow2_plus. }
  pose proof (B64_pow2_pos k). pose proof (B64_pow2_pos ld). pose proof (B64_pow2_pos (k - 1)).
  set (D := inject_Z (Z.pos d)) in *. set (N := inject_Z n) in *.
  assert (pow2 (k - 1) * D < N) as Lo.
  { rewrite E2 in Qd2. rewrite E3, E5 in Qn1. nra. }
  assert (N < pow2 (k + 1) * D) as Hi.
  { rewrite E1, E3 in Qn2. rewrite E4. nra. }
  destruct (Qle_bool (pow2 k) (n # d)) eqn:Hc.
  - apply Qle_bool_iff in Hc. split; [done|].
    rewrite Ex. apply Qlt_shift_div_r; [done|]. done.
  - assert (¬ pow2 k <= n # d) as Hc' by (by rewrite <- Qle_bool_iff, Hc).
    apply Qnot_le_lt in Hc'.
    replace (k - 1 + 1)%Z with k by lia. split; [|done].
    rewrite Ex. apply Qle_shift_div_l; [done|]. by apply Qlt_le_weak.
Qed.

Lemma B64_ilog2_mono x y : 0 < x → x <= y → (ilog2 x <= ilog2 y)%Z.
Proof.
  intros Hx Hxy.
  destruct (B64_ilog2_spec x Hx) as [Hx1 _].
  destruct (B64_ilog2_spec y ltac:(lra)) as [_ Hy2].
  destruct (decide (ilog2 x <= ilog2 y)%Z) as [|Hn]; [done|].
  pose proof (B64_pow2_le (ilog2 y + 1) (ilog2 x) ltac:(lia)). lra.
Qed.

Lemma B64_ilog2_unique x l :
  0 < x → pow2 l <= x → x < pow2 (l + 1) → ilog2 x = l.
Proof.
  intros Hx Hl1 Hl2. destruct (B64_ilog2_spec x Hx) as [H1 H2].
  destruct (decide (ilog2 x < l)%Z) as [Hlt|Hge].
  - pose proof (B64_pow2_le (ilog2 x + 1) l ltac:(lia)). lra.
  - destruct (decide (l < ilog2 x)%Z) as [Hgt|]; [|lia].
    pose proof (B64_pow2_le (l + 1) (ilog2 x) ltac:(lia)). lra.
Qed.

Lemma B64_ilog2_proper x y : 0 < x → x == y → ilog2 x = ilog2 y.
Proof.
  intros Hx E. symmetry. destruct (B64_ilog2_spec x Hx) as [H1 H2].
  apply B64_ilog2_unique; lra.
Qed.

(** Rounding a positive rational to 53 significant bits, with the least
    exponent -1074. *)
Lemma B64_round_pos_nonneg x : 0 < x → 0 <= round_pos x.
Proof.
  intros Hx. unfold round_pos.
  set (e := Z.max _ _). pose proof (B64_pow2_pos e). pose proof (B64_pow2_pos (- e)).
  assert (0 <= rne (x * pow2 (- e)))%Z as Hr by (apply B64_rne_nonneg; nra).
  apply Qmult_le_0_compat; [|lra]. by rewrite <- (Zle_Qle 0).
Qed.

Lemma B64_round_pos_mono x y : 0 < x → x <= y → round_pos x <= round_pos y.
Proof.
  intros Hx Hxy. assert (0 < y) as Hy by lra.
  pose proof (B64_ilog2_mono x y Hx Hxy) as Hl.
  destruct (B64_ilog2_spec x Hx) as [_ Hx2]. destruct (B64_ilog2_spec y Hy) as [Hy1 _].
  unfold round_pos.
  set (ex := Z.max (ilog2 x - 52) (-1074)). set (ey := Z.max (ilog2 y - 52) (-1074)).
  pose proof (B64_pow2_pos ex). pose proof (B64_pow2_pos ey).
  pose proof (B64_pow2_pos (- ex)). pose proof (B64_pow2_pos (- ey)).
  destruct (decide (ex = ey)) as [E|Hne].
  - rewrite E. apply Qmult_le_compat_r; [|lra].
    rewrite <- Zle_Qle. apply B64_rne_mono. rewrite <- E. nra.
  - assert (ex < ey)%Z as Hlt by lia.
    assert (ey = ilog2 y - 52)%Z as Ey by lia.
    assert (ilog2 x + 1 <= ilog2 y)%Z as Hl' by lia.
    pose proof (B64_pow2_le _ _ Hl') as HB.
    set (B := pow2 (ilog2 y)) in *.
    apply Qle_trans with B.
    + assert (B == inject_Z (2 ^ (ey + 52 - ex)) * pow2 ex) as EB.
      { rewrite <- B64_pow2_Z by lia. rewrite <- B64_pow2_plus. unfold B.
        by replace (ey + 52 - ex + ex)%Z with (ilog2 y) by lia. }
      rewrite EB. apply Qmult_le_compat_r; [|lra].
      rewrite <- Zle_Qle. rewrite <- (B64_rne_Z (2 ^ _)). apply B64_rne_mono.
      rewrite <- B64_pow2_Z by lia.
      assert (pow2 (ey + 52 - ex) == B * pow2 (- ex)) as ->.
      { unfold B. rewrite <- B64_pow2_plus.
        by replace (ilog2 y + - ex)%Z with (ey + 52 - ex)%Z by lia. }
      nra.
    + assert (B == inject_Z (2 ^ 52) * pow2 ey) as EB.
      { rewrite <- B64_pow2_Z by lia. rewrite <- B64_pow2_plus. unfold B.
        by replace (52 + ey)%Z with (ilog2 y) by lia. }
      rewrite EB. apply Qmult_le_compat_r; [|lra].
      rewrite <- Zle_Qle. rewrite <- (B64_rne_Z (2 ^ _)). apply B64_rne_mono.
      rewrite <- B64_pow2_Z by lia.
      assert (pow2 52 == B * pow2 (- ey)) as ->.
      { unfold B. rewrite <- B64_pow2_plus.
        by replace (ilog2 y + - ey)%Z with 52%Z by lia. }
      nra.
Qed.

Lemma B64_round_pos_proper x y : 0 < x → x == y → round_pos x == round_pos y.
Proof.
  intros Hx E. apply Qle_antisym; apply B64_round_pos_mono; lra.
Qed.

Lemma B64_round_proper x y : x == y → round x = round y.
Proof.
  intros E. unfold round. rewrite <- E.
  destruct (Qcompare_spec x 0) as [| |Hpos]; [done|..]; cbn zeta.
  - assert (round_pos (- x) == round_pos (- y)) as Ev
      by (apply B64_round_pos_proper; lra).
    rewrite <- Ev. destruct (Qle_bool _ _); [done|].
    f_equal. apply Qred_complete. by rewrite Ev.
  - assert (round_pos x == round_pos y) as Ev
      by (by apply B64_round_pos_proper).
    rewrite <- Ev. destruct (Qle_bool _ _); [done|].
    f_equal. by apply Qred_complete.
Qed.

End Rounding.

(** ** Order and arithmetic of binary64 numbers *)

Section Numbers.
Import B64.
Local Open Scope Q_scope.

Lemma B64_le_Fin a b : le (Fin a) (Fin b) = true ↔ a <= b.
Proof. apply Qle_bool_iff. Qed.

Lemma B64_le_Fin_false a b : le (Fin a) (Fin b) = false ↔ b < a.
Proof.
  rewrite <- not_true_iff_false, B64_le_Fin.
  split; [apply Qnot_le_lt | apply Qlt_not_le].
Qed.

(** A number that is [>= 0] is [+Infinity] or a rational [>= 0]. *)
Lemma B64_nonneg_cases x :
  le (Fin 0) x = true → x = Inf false ∨ ∃ q, x = Fin q ∧ 0 <= q.
Proof.
  destruct x as [|[]|q]; simpl; try done; [by left|].
  intros H%Qle_bool_iff. right. by exists q.
Qed.

Lemma B64_le_Inf x : le (Fin 0) x = true → le x (Inf false) = true.
Proof. by intros [->|(q & -> & _)]%B64_nonneg_cases. Qed.

Lemma B64_le_refl_nonneg x : le (Fin 0) x = true → le x x = true.
Proof.
  intros [->|(q & -> & _)]%B64_nonneg_cases; [done|]. apply B64_le_Fin, Qle_refl.
Qed.

Lemma B64_le_trans x y z : le x y = true → le y z = true → le x z = true.
Proof.
  destruct x as [|[]|a], y as [|[]|b], z as [|[]|c]; simpl; try done.
  rewrite !Qle_bool_iff. apply Qle_trans.
Qed.

Lemma B64_eqb_refl x : eqb x x = negb (is_nan x).
Proof.
  destruct x as [|[]|q]; try done. unfold eqb. simpl.
  assert (Qle_bool q q = true) as -> by apply Qle_bool_iff, Qle_refl. done.
Qed.

Lemma B64_round_nonneg x : 0 <= x → le (Fin 0) (round x) = true.
Proof.
  intros Hx. unfold round.
  destruct (Qcompare_spec x 0) as [| |Hpos]; [done|lra|]. cbn zeta.
  destruct (Qle_bool _ _); [done|].
  apply B64_le_Fin. rewrite Qred_correct. by apply B64_round_pos_nonneg.
Qed.

Lemma B64_round_le x y : 0 <= x → x <= y → le (round x) (round y) = true.
Proof.
  intros Hx Hxy. pose proof (B64_round_nonneg y ltac:(lra)) as Hy.
  unfold round in *.
  destruct (Qcompare_spec x 0) as [| |Hpos]; [done|lra|].
  destruct (Qcompare_spec y 0) as [| |Hpos']; [lra|lra|]. cbn zeta in *.
  pose proof (B64_round_pos_mono x y Hpos Hxy) as Hm.
  destruct (Qle_bool (pow2 1024) (round_pos x)) eqn:Ox;
    destruct (Qle_bool (pow2 1024) (round_pos y)) eqn:Oy; try done.
  - apply Qle_bool_iff in Ox.
    assert (¬ pow2 1024 <= round_pos y) as Hn
      by (by rewrite <- Qle_bool_iff, Oy).
    destruct Hn. lra.
  - apply B64_le_Fin. by rewrite !Qred_correct.
Qed.

Lemma B64_mul_le_l w x y :
  0 < w → le (Fin 0) x = true → le x y = true →
  le (Fin 0) (mul (Fin w) x) = true ∧
  le (mul (Fin w) x) (mul (Fin w) y) = true.
Proof.
  intros Hw Hx Hxy.
  assert (Qeq_bool w 0 = false) as Hw0.
  { apply not_true_iff_false. intros E%Qeq_bool_iff. lra. }
  assert (is_neg w = false) as Hwn.
  { unfold is_neg. apply negb_false_iff, Qle_bool_iff. lra. }
  pose proof (B64_le_trans _ _ _ Hx Hxy) as Hy.
  destruct (B64_nonneg_cases x Hx) as [->|(a & -> & Ha)];
    destruct (B64_nonneg_cases y Hy) as [->|(b & -> & Hb)]; simpl;
    rewrite ?Hw0, ?Hwn; simpl; try done.
  - split; [apply B64_round_nonneg; nra|]. apply B64_le_Inf, B64_round_nonneg. nra.
  - apply B64_le_Fin in Hxy. split; [apply B64_round_nonneg; nra|].
    apply B64_round_le; nra.
Qed.

Lemma B64_mul_le_r p x y :
  0 < p → le (Fin 0) x = true → le x y = true →
  le (Fin 0) (mul x (Fin p)) = true ∧
  le (mul x (Fin p)) (mul y (Fin p)) = true.
Proof.
  intros Hw Hx Hxy.
  assert (Qeq_bool p 0 = false) as Hw0.
  { apply not_true_iff_false. intros E%Qeq_bool_iff. lra. }
  assert (is_neg p = false) as Hwn.
  { unfold is_neg. apply negb_false_iff, Qle_bool_iff. lra. }
  pose proof (B64_le_trans _ _ _ Hx Hxy) as Hy.
  destruct (B64_nonneg_cases x Hx) as [->|(a & -> & Ha)];
    destruct (B64_nonneg_cases y Hy) as [->|(b & -> & Hb)]; simpl;
    rewrite ?Hw0, ?Hwn; simpl; try done.
  - split; [apply B64_round_nonneg; nra|]. apply B64_le_Inf, B64_round_nonneg. nra.
  - apply B64_le_Fin in Hxy. split; [apply B64_round_nonneg; nra|].
    apply B64_round_le; nra.
Qed.

Lemma B64_add_le a x y :
  le (Fin 0) a = true → le (Fin 0) x = true → le x y = true →
  le (Fin 0) (add a x) = true ∧ le (add a x) (add a y) = true.
Proof.
  intros Ha Hx Hxy. pose proof (B64_le_trans _ _ _ Hx Hxy) as Hy.
  destruct (B64_nonneg_cases a Ha) as [->|(qa & -> & Hqa)];
    destruct (B64_nonneg_cases x Hx) as [->|(qx & -> & Hqx)];
    destruct (B64_nonneg_cases y Hy) as [->|(qy & -> & Hqy)]; simpl; try done.
  - split; [apply B64_round_nonneg; lra|]. apply B64_le_Inf, B64_round_nonneg. lra.
  - apply B64_le_Fin in Hxy. split; [apply B64_round_nonneg; lra|].
    apply B64_round_le; lra.
Qed.

Lemma B64_div_100_le a b :
  0 <= a → a <= b →
  le (Fin 0) (div (Fin a) (Fin 100)) = true ∧
  le (div (Fin a) (Fin 100)) (div (Fin b) (Fin 100)) = true.
Proof.
  intros Ha Hab. simpl.
  split; [apply B64_round_nonneg|apply B64_round_le];
    unfold Qdiv; change (/ 100) with (1 # 100); lra.
Qed.


(** Integers up to 2^53 are binary64 values, and [i + 1] is exact below
    2^53. *)
Lemma B64_ilog2_Z n : (0 < n)%Z → ilog2 (inject_Z n) = Z.log2 n.
Proof.
  intros Hn. pose proof (Z.log2_spec n Hn) as [H1 H2].
  pose proof (Z.log2_nonneg n).
  apply B64_ilog2_unique.
  - by rewrite <- (Zlt_Qlt 0).
  - rewrite B64_pow2_Z by done. by rewrite <- Zle_Qle.
  - rewrite B64_pow2_Z by lia. rewrite <- Zlt_Qlt.
    by replace (Z.log2 n + 1)%Z with (Z.succ (Z.log2 n)) by lia.
Qed.

Lemma B64_round_pos_Z n : (0 < n < 2 ^ 53)%Z → round_pos (inject_Z n) == inject_Z n.
Proof.
  intros [Hn Hn']. unfold round_pos. rewrite B64_ilog2_Z by done.
  pose proof (Z.log2_nonneg n).
  assert (Z.log2 n < 53)%Z as Hl by (apply Z.log2_lt_pow2; lia).
  replace (Z.max (Z.log2 n - 52) (-1074)) with (Z.log2 n - 52)%Z by lia.
  set (e := (Z.log2 n - 52)%Z).
  assert (inject_Z n * pow2 (- e) == inject_Z (n * 2 ^ (- e))) as E.
  { rewrite inject_Z_mult. by rewrite B64_pow2_Z by lia. }
  rewrite (B64_rne_proper _ _ E), B64_rne_Z, inject_Z_mult, <- B64_pow2_Z by lia.
  rewrite <- Qmult_assoc, B64_pow2_cancel. ring.
Qed.

Lemma Qred_inject_Z n : Qred (inject_Z n) = inject_Z n.
Proof.
  unfold Qred, inject_Z.
  pose proof (Z.ggcd_gcd n 1) as Hg.
  pose proof (Z.ggcd_correct_divisors n 1) as Hd.
  destruct (Z.ggcd n 1) as [g [aa bb]]. simpl in *.
  rewrite Z.gcd_1_r in Hg. subst g. destruct Hd as [-> Hb].
  f_equal; lia.
Qed.

Lemma B64_round_Z n : (0 <= n <= 2 ^ 53)%Z → round (inject_Z n) = Fin (inject_Z n).
Proof.
  intros [Hn Hn'].
  destruct (decide (n = 0%Z)) as [->|Hn0]; [done|].
  destruct (decide (n = 2 ^ 53)%Z) as [->|Hn53]; [by vm_compute|].
  assert (0 < n < 2 ^ 53)%Z as Hr by lia.
  pose proof (B64_round_pos_Z n Hr) as Ev.
  unfold round.
  destruct (Qcompare_spec (inject_Z n) 0) as [E|Hlt|Hgt].
  - apply (inject_Z_injective n 0) in E. done.
  - change 0 with (inject_Z 0) in Hlt. rewrite <- Zlt_Qlt in Hlt. lia.
  - cbn zeta.
    assert (Qle_bool (pow2 1024) (round_pos (inject_Z n)) = false) as ->.
    { apply not_true_iff_false. intros Ho%Qle_bool_iff.
      rewrite Ev, B64_pow2_Z in Ho by done. rewrite <- Zle_Qle in Ho.
      assert (2 ^ 53 < 2 ^ 1024)%Z by (apply Z.pow_lt_mono_r; lia). lia. }
    f_equal. transitivity (Qred (inject_Z n));
      [by apply Qred_complete | apply Qred_inject_Z].
Qed.

Lemma B64_add_1_Z n :
  (0 <= n < 2 ^ 53)%Z →
  add (Fin (inject_Z n)) (Fin 1) = Fin (inject_Z (n + 1)).
Proof.
  intros Hn. simpl. rewrite <- B64_round_Z by lia.
  apply B64_round_proper. by rewrite inject_Z_plus.
Qed.

Lemma B64_le_Z a b : le (Fin (inject_Z a)) (Fin (inject_Z b)) = (a <=? b)%Z.
Proof.
  apply eq_true_iff_eq. by rewrite B64_le_Fin, <- Zle_Qle, Z.leb_le.
Qed.


(** A negative integer rounds to a negative number. *)
Lemma B64_round_Z_neg n : (n < 0)%Z → lt (round (inject_Z n)) (Fin 0) = true.
Proof.
  intros Hn. unfold round.
  destruct (Qcompare_spec (inject_Z n) 0) as [E|Hlt|Hgt].
  - apply (inject_Z_injective n 0) in E. lia.
  - cbn zeta. destruct (Qle_bool _ _); [done|]. simpl.
    apply negb_true_iff, not_true_iff_false. intros H%Qle_bool_iff.
    rewrite Qred_correct in H.
    assert (1 <= - inject_Z n) as H1.
    { rewrite <- inject_Z_opp. rewrite <- (Zle_Qle 1). lia. }
    pose proof (B64_round_pos_mono 1 _ ltac:(lra) H1) as Hm.
    assert (round_pos 1 == 1) as E1 by (by vm_compute).
    lra.
  - change 0 with (inject_Z 0) in Hgt. rewrite <- Zlt_Qlt in Hgt. lia.
Qed.

End Numbers.

(** ** The validator and the loop in binary64 *)

Section Sweep64.
Context {SP : Type}.
Variable sweepDecimal : SP → Q.
Implicit Types st : Engine64.State SP.
Import B64 Engine64.

Lemma validate64_ok st : (validate st).1 = true ↔ newErrors st = ∅.
Proof.
  unfold validate. simpl. rewrite Nat.eqb_eq. apply map_size_empty_iff.
Qed.

Lemma newErrors64_lookup_price st :
  newErrors st !! F_price =
  if JS.falsy (price st) || le (parseFloat (price st)) (Fin 0)
  then Some "Invalid price" else None.
Proof. unfold newErrors. split_ifs; by lookup_errors. Qed.

Lemma newErrors64_lookup_weight st :
  newErrors st !! F_weight =
  if JS.falsy (weight st) || le (parseFloat (weight st)) (Fin 0)
  then Some "Invalid weight" else None.
Proof. unfold newErrors. split_ifs; by lookup_errors. Qed.

Lemma newErrors64_lookup_minPercent st :
  newErrors st !! F_minPercent =
  if JS.falsy (minPercent st) || lt (parseInt (minPercent st)) (Fin 0)
  then Some "Invalid %" else None.
Proof. unfold newErrors. split_ifs; by lookup_errors. Qed.

Lemma newErrors64_lookup_maxPercent st :
  newErrors st !! F_maxPercent =
  if gt (parseInt (minPercent st)) (parseInt (maxPercent st))
  then Some "Max must be >= min"
  else if JS.falsy (maxPercent st) || lt (parseInt (maxPercent st)) (Fin 0)
       then Some "Invalid %" else None.
Proof. unfold newErrors. split_ifs; by lookup_errors. Qed.

(** What a passed validation says: each of the five tests was false. *)
Lemma validated64_tests st :
  (validate st).1 = true →
  le (parseFloat (price st)) (Fin 0) = false ∧
  le (parseFloat (weight st)) (Fin 0) = false ∧
  lt (parseInt (minPercent st)) (Fin 0) = false ∧
  lt (parseInt (maxPercent st)) (Fin 0) = false ∧
  gt (parseInt (minPercent st)) (parseInt (maxPercent st)) = false.
Proof.
  intros He%validate64_ok.
  pose proof (newErrors64_lookup_price st) as H1.
  pose proof (newErrors64_lookup_weight st) as H2.
  pose proof (newErrors64_lookup_minPercent st) as H3.
  pose proof (newErrors64_lookup_maxPercent st) as H4.
  rewrite He, lookup_empty in H1, H2, H3, H4.
  destruct (gt _ _); [done|].
  destruct (JS.falsy (price st) || _) eqn:E1; [done|].
  destruct (JS.falsy (weight st) || _) eqn:E2; [done|].
  destruct (JS.falsy (minPercent st) || _) eqn:E3; [done|].
  destruct (JS.falsy (maxPercent st) || _) eqn:E4; [done|].
  apply orb_false_iff in E1 as [_ ?], E2 as [_ ?], E3 as [_ ?], E4 as [_ ?].
  done.
Qed.

(** [parseInt] on a text whose digits give an integer of at most 2^53. *)
Lemma parseInt64_Z s z :
  JS.parseInt s = JS.Int z → 0 <= z <= 2 ^ 53 →
  parseInt s = Fin (inject_Z z).
Proof. intros Hz Hr. unfold parseInt. rewrite Hz. by apply B64_round_Z. Qed.

(** On a validated form whose bounds are integers, the upper one below
    2^53, the bounds are read exactly and [0 <= min <= max]. *)
Lemma validated64_bounds st a b :
  (validate st).1 = true →
  JS.parseInt (minPercent st) = JS.Int a →
  JS.parseInt (maxPercent st) = JS.Int b →
  b < 2 ^ 53 →
  0 <= a <= b ∧
  parseInt (minPercent st) = Fin (inject_Z a) ∧
  parseInt (maxPercent st) = Fin (inject_Z b).
Proof.
  intros (_ & _ & Hmin & Hmax & Hgt)%validated64_tests Ha Hb Hb53.
  assert (0 <= a) as Ha0.
  { destruct (decide (0 <= a)) as [|Hn]; [done|].
    unfold parseInt in Hmin. rewrite Ha, B64_round_Z_neg in Hmin by lia. done. }
  assert (0 <= b) as Hb0.
  { destruct (decide (0 <= b)) as [|Hn]; [done|].
    unfold parseInt in Hmax. rewrite Hb, B64_round_Z_neg in Hmax by lia. done. }
  pose proof (parseInt64_Z _ _ Hb ltac:(lia)) as Eb.
  destruct (decide (a <= b)) as [Hab|Hn].
  { split; [lia|]. split; [|done]. apply parseInt64_Z; [done|lia]. }
  exfalso. rewrite Eb in Hgt. unfold parseInt in Hgt. rewrite Ha in Hgt.
  assert (le (round (inject_Z (b + 1))) (round (inject_Z a)) = true) as Hle.
  { apply B64_round_le.
    - change 0%Q with (inject_Z 0). rewrite <- Zle_Qle. lia.
    - rewrite <- Zle_Qle. lia. }
  rewrite B64_round_Z in Hle by lia.
  destruct (round (inject_Z a)) as [|[]|q] eqn:Er; try done.
  unfold gt, lt in Hgt. apply negb_false_iff in Hgt.
  pose proof (B64_le_trans _ _ _ Hle Hgt) as Hc. rewrite B64_le_Z in Hc. lia.
Qed.

(** The loop between two integers, the upper one below 2^53, when the
    results fit in an array: it comes to an end after [b + 1 - i] turns, and
    only then. *)
Lemma sweep64_Z fuel body i b acc :
  0 <= i <= b + 1 → b < 2 ^ 53 →
  Z.of_nat (length acc) + (b + 1 - i) <= maxLength →
  sweep fuel body (Fin (inject_Z i)) (Fin (inject_Z b)) acc =
  if decide (Z.to_nat (b + 1 - i) ≤ fuel)%nat
  then Returns
         (acc ++ ((λ k, body (Fin (inject_Z k))) <$> seqZ i (b + 1 - i)))
  else Running.
Proof.
  revert i acc. induction fuel as [|fuel IH]; intros i acc Hi Hb Hlen;
    cbn [sweep]; rewrite B64_le_Z.
  - destruct (i <=? b) eqn:Hle.
    + apply Z.leb_le in Hle. by rewrite decide_False by lia.
    + apply Z.leb_gt in Hle. rewrite decide_True by lia.
      rewrite seqZ_nil by lia. by rewrite app_nil_r.
  - destruct (i <=? b) eqn:Hle.
    + apply Z.leb_le in Hle.
      assert ((Z.of_nat (length acc) <? maxLength) = true) as ->
        by (apply Z.ltb_lt; lia).
      rewrite B64_add_1_Z by lia.
      rewrite IH; [|lia|lia|rewrite length_app; simpl; lia].
      destruct (decide (Z.to_nat (b + 1 - (i + 1)) ≤ fuel)%nat);
        [rewrite decide_True by lia | by rewrite decide_False by lia].
      rewrite (seqZ_cons i) by lia. rewrite fmap_cons, <- app_assoc.
      cbn [app].
      by replace (Z.succ i) with (i + 1) by lia;
         replace (Z.pred (b + 1 - i)) with (b + 1 - (i + 1)) by lia.
    + apply Z.leb_gt in Hle. rewrite decide_True by lia.
      rewrite seqZ_nil by lia. by rewrite app_nil_r.
Qed.

(** When the results do not fit in an array the loop does not return: it
    is still running, or [push] has thrown. *)
Lemma sweep64_full fuel body i b acc rs :
  0 <= i <= b + 1 → b < 2 ^ 53 →
  Z.of_nat (length acc) <= maxLength →
  maxLength < Z.of_nat (length acc) + (b + 1 - i) →
  sweep fuel body (Fin (inject_Z i)) (Fin (inject_Z b)) acc ≠ Returns rs.
Proof.
  revert i acc. induction fuel as [|fuel IH]; intros i acc Hi Hb Hacc Hlen;
    cbn [sweep]; rewrite B64_le_Z;
    (assert ((i <=? b) = true) as -> by (apply Z.leb_le; lia)); [done|].
  destruct (Z.of_nat (length acc) <? maxLength) eqn:Hfull; [|done].
  apply Z.ltb_lt in Hfull. rewrite B64_add_1_Z by lia.
  apply IH; [lia | lia | |]; rewrite length_app; simpl; lia.
Qed.


(** Whatever the bounds, a result of the loop is the body at its own
    counter. *)
Lemma sweep64_elem_of fuel body i m acc rs r :
  sweep fuel body i m acc = Returns rs → r ∈ rs →
  r ∈ acc ∨ ∃ j, r = body j.
Proof.
  revert i acc. induction fuel as [|fuel IH]; intros i acc; cbn [sweep];
    destruct (le i m); try done; try (intros [= <-]; by left).
  destruct (_ <? _); [|done].
  intros Hs Hr. destruct (IH _ _ Hs Hr) as [Hin|?]; [|by right].
  apply elem_of_app in Hin as [?|Hin]; [by left|].
  apply list_elem_of_singleton in Hin. right. by exists i.
Qed.

(** What [calculateAndSelect] hands to [setResults] and to
    [setSelectedResult] on a validated form. *)
Lemma calculateAndSelect64_valid fuel sel st st' :
  (validate st).1 = true →
  calculateAndSelect sweepDecimal fuel sel st = Returns st' →
  sweep fuel
    (resultAt (parseFloat (price st)) (parseFloat (weight st))
       (round (sweepDecimal (purity st))))
    (parseInt (minPercent st)) (parseInt (maxPercent st)) []
  = Returns (results st') ∧
  selectedResult st' =
  match sel with
  | Some target =>
      match find (fun r => eqb (percent r) target) (results st') with
      | Some r => Some r
      | None => head (results st')
      end
  | None => head (results st')
  end.
Proof.
  unfold calculateAndSelect. destruct (validate st) as [ok st1] eqn:Hv.
  assert (st1 = setErrors (newErrors st) st) as ->
    by (unfold validate in Hv; congruence).
  simpl. intros ->. simpl.
  destruct (sweep _ _ _ _ _) as [| |rs]; [done..|].
  destruct sel; intros [= <-]; done.
Qed.

Lemma calculateAndSelect64_invalid fuel sel st :
  (validate st).1 = false →
  ∃ st', calculateAndSelect sweepDecimal fuel sel st = Returns st' ∧
         results st' = [] ∧ selectedResult st' = None.
Proof.
  unfold calculateAndSelect. destruct (validate st) as [ok st1].
  simpl. intros ->. simpl. by eexists.
Qed.

Lemma calculateAndSelect64_returns fuel sel st rs :
  (validate st).1 = true →
  sweep fuel
    (resultAt (parseFloat (price st)) (parseFloat (weight st))
       (round (sweepDecimal (purity st))))
    (parseInt (minPercent st)) (parseInt (maxPercent st)) [] = Returns rs →
  ∃ st', calculateAndSelect sweepDecimal fuel sel st = Returns st' ∧
         results st' = rs.
Proof.
  unfold calculateAndSelect. destruct (validate st) as [ok st1] eqn:Hv.
  assert (st1 = setErrors (newErrors st) st) as ->
    by (unfold validate in Hv; congruence).
  simpl. intros -> Hs. simpl. rewrite Hs. destruct sel; by eexists.
Qed.

(** A result of [calculateAndSelect] is the loop body at its own percent. *)
Lemma results64_elem_of fuel sel st st' r :
  calculateAndSelect sweepDecimal fuel sel st = Returns st' →
  r ∈ results st' →
  (validate st).1 = true ∧
  r = resultAt (parseFloat (price st)) (parseFloat (weight st))
        (round (sweepDecimal (purity st))) (percent r).
Proof.
  intros Hc Hr. destruct (validate st).1 eqn:Hv.
  - split; [done|].
    destruct (calculateAndSelect64_valid _ _ _ _ Hv Hc) as [Hs _].
    destruct (sweep64_elem_of _ _ _ _ _ _ _ Hs Hr) as [Hin|[j ->]]; [|done].
    by apply elem_of_nil in Hin.
  - destruct (calculateAndSelect64_invalid fuel sel st Hv)
      as (st'' & Hc' & Hn & _).
    rewrite Hc in Hc'. injection Hc' as <-. rewrite Hn in Hr.
    by apply elem_of_nil in Hr.
Qed.

(** The results on a validated form whose bounds are the integers [a] and
    [b < 2^53]: when [b - a + 1] results fit in an array, the loop returns
    once it is given [b - a + 1] turns; and what it returns, when it
    returns, is the body at [a], [a + 1], ..., [b]. *)
Lemma results64_Z fuel sel st a b :
  (validate st).1 = true →
  JS.parseInt (minPercent st) = JS.Int a →
  JS.parseInt (maxPercent st) = JS.Int b →
  b < 2 ^ 53 →
  let body k :=
    resultAt (parseFloat (price st)) (parseFloat (weight st))
      (round (sweepDecimal (purity st))) (Fin (inject_Z k)) in
  (b - a + 1 <= maxLength → (Z.to_nat (b - a + 1) ≤ fuel)%nat →
   ∃ st', calculateAndSelect sweepDecimal fuel sel st = Returns st') ∧
  (∀ st', calculateAndSelect sweepDecimal fuel sel st = Returns st' →
          b - a + 1 <= maxLength ∧
          results st' = body <$> seqZ a (b - a + 1)).
Proof.
  intros Hv Ha Hb Hb53 body.
  destruct (validated64_bounds st a b Hv Ha Hb Hb53) as (Hab & Ea & Eb).
  set (f := resultAt (parseFloat (price st)) (parseFloat (weight st))
              (round (sweepDecimal (purity st)))).
  assert (b - a + 1 <= maxLength →
          sweep fuel f (parseInt (minPercent st)) (parseInt (maxPercent st)) []
          = if decide (Z.to_nat (b - a + 1) ≤ fuel)%nat
            then Returns (body <$> seqZ a (b - a + 1)) else Running) as Hs.
  { intros Hlen. rewrite Ea, Eb, sweep64_Z by (simpl; lia).
    by replace (b + 1 - a) with (b - a + 1) by lia. }
  split.
  - intros Hlen Hf. specialize (Hs Hlen). rewrite decide_True in Hs by done.
    destruct (calculateAndSelect64_returns fuel sel st _ Hv Hs) as (st' & ? & _).
    by exists st'.
  - intros st' Hc.
    destruct (calculateAndSelect64_valid _ _ _ _ Hv Hc) as [Hs' _].
    fold f in Hs'.
    destruct (decide (b - a + 1 <= maxLength)) as [Hlen|Hlong].
    + split; [done|]. rewrite (Hs Hlen) in Hs'.
      destruct (decide _); [|done]. by injection Hs' as <-.
    + exfalso. rewrite Ea, Eb in Hs'.
      by apply sweep64_full in Hs'; [|lia|done|simpl; unfold maxLength; lia
                                      |simpl; lia].
Qed.

(** The totals of the loop body grow with the counter, and none is [NaN],
    when the price and the weight are numbers [> 0]. *)
Lemma total64_mono (p w d : Q) (i j : Z) :
  (0 < p)%Q → (0 < w)%Q → (0 <= d)%Q → 0 <= i <= j →
  le (Fin 0) (total (resultAt (Fin p) (Fin w) (round d) (Fin (inject_Z i))))
  = true ∧
  le (total (resultAt (Fin p) (Fin w) (round d) (Fin (inject_Z i))))
     (total (resultAt (Fin p) (Fin w) (round d) (Fin (inject_Z j)))) = true.
Proof.
  intros Hp Hw Hd [Hi Hij]. unfold resultAt. cbn [total].
  pose proof (B64_round_nonneg d Hd) as HD.
  destruct (B64_mul_le_l w _ _ Hw HD (B64_le_refl_nonneg _ HD)) as [HwD _].
  destruct (B64_mul_le_r p _ _ Hp HwD (B64_le_refl_nonneg _ HwD)) as [Hpv _].
  assert (0 <= inject_Z i)%Q as Hi'
    by (change 0%Q with (inject_Z 0); rewrite <- Zle_Qle; lia).
  assert (inject_Z i <= inject_Z j)%Q as Hij' by (rewrite <- Zle_Qle; lia).
  destruct (B64_div_100_le _ _ Hi' Hij') as [Hx Hxy].
  destruct (B64_mul_le_l w _ _ Hw Hx Hxy) as [Hwx Hwxy].
  destruct (B64_mul_le_r p _ _ Hp Hwx Hwxy) as [Hwv Hwvy].
  by apply B64_add_le.
Qed.

End Sweep64.

(** ** The model against the binary64 arithmetic of Rocq's kernel

    The operations of [B64] give, on the numbers of the examples below, what
    the primitive floats of the kernel give: the products and the sum of the
    gold scenario, the quotient i / 100, the increment at 2^53, an
    underflow and an overflow. *)
Lemma B64_agrees_with_primitive_floats :
  B64.round 0.92 = B64.of_float 0.92 ∧
  B64.parseFloat "7200" = B64.of_float 7200 ∧
  B64.parseFloat "1e-323" = B64.of_float 1e-323 ∧
  B64.parseFloat "1e308" = B64.of_float 1e308 ∧
  B64.parseInt "9007199254740993" = B64.of_float 9007199254740993 ∧
  B64.mul (B64.of_float 10) (B64.of_float 0.92) = B64.of_float (10 * 0.92) ∧
  B64.mul (B64.of_float (10 * 0.92)) (B64.of_float 7200)
  = B64.of_float (10 * 0.92 * 7200) ∧
  B64.div (B64.of_float 9) (B64.of_float 100) = B64.of_float (9 / 100) ∧
  B64.mul (B64.of_float (10 * (9 / 100))) (B64.of_float 7200)
  = B64.of_float (10 * (9 / 100) * 7200) ∧
  B64.add (B64.of_float (10 * 0.92 * 7200))
    (B64.of_float (10 * (9 / 100) * 7200))
  = B64.of_float (10 * 0.92 * 7200 + 10 * (9 / 100) * 7200) ∧
  B64.div (B64.of_float 5760) (B64.of_float (7200 * 0.92))
  = B64.of_float (5760 / (7200 * 0.92)) ∧
  B64.add (B64.of_float 9007199254740992) (B64.of_float 1)
  = B64.of_float (9007199254740992 + 1) ∧
  B64.add (B64.of_float 9007199254740994) (B64.of_float 1)
  = B64.of_float (9007199254740994 + 1) ∧
  B64.mul (B64.of_float 0.92) (B64.of_float 1e-323)
  = B64.of_float (0.92 * 1e-323) ∧
  B64.mul (B64.of_float 0.08) (B64.of_float 1e-323)
  = B64.of_float (0.08 * 1e-323) ∧
  B64.mul (B64.of_float 92) (B64.of_float 1e308)
  = B64.of_float (92 * 1e308) ∧
  B64.sub (B64.of_float (92 * 1e308)) (B64.of_float (92 * 1e308))
  = B64.of_float (92 * 1e308 - 92 * 1e308).
Proof. vm_compute. repeat split. Qed.

(** ** The claims that depend on binary64 *)

Section Claims64.
Context {SP : Type}.
Variable sweepDecimal : SP → Q.
Implicit Types st : Engine64.State SP.
Import B64 Engine64.


(** C4.  In every result that [calculateAndSelect] returns, [purityValue]
    and [wastageValue] are the two products of the loop body on the parsed
    price and weight, and [total] is their binary64 sum, with no other
    operation applied: [total === purityValue + wastageValue] holds unless
    the total is [NaN].  On a validated input whose price and weight are
    numbers [> 0] and whose bounds are integers below 2^53 there is a
    result, and no total is [NaN]. *)
Theorem total_is_purity_plus_wastage fuel sel st st' :
  calculateAndSelect sweepDecimal fuel sel st = Returns st' →
  let p := parseFloat (price st) in
  let w := parseFloat (weight st) in
  let d := round (sweepDecimal (purity st)) in
  (∀ r, r ∈ results st' →
     purityValue r = mul (mul w d) p ∧
     wastageValue r = mul (mul w (div (percent r) (Fin 100))) p ∧
     total r = add (purityValue r) (wastageValue r) ∧
     eqb (total r) (add (purityValue r) (wastageValue r))
     = negb (is_nan (total r))) ∧
  (∀ pq wq a b,
     (validate st).1 = true →
     p = Fin pq → (0 < pq)%Q → w = Fin wq → (0 < wq)%Q →
     (0 <= sweepDecimal (purity st))%Q →
     JS.parseInt (minPercent st) = JS.Int a →
     JS.parseInt (maxPercent st) = JS.Int b → b < 2 ^ 53 →
     results st' ≠ [] ∧
     ∀ r, r ∈ results st' →
       is_nan (total r) = false ∧
       eqb (total r) (add (purityValue r) (wastageValue r)) = true).
Proof.
  intros Hc p w d.
  assert (∀ r, r ∈ results st' → r = resultAt p w d (percent r)) as Hbody.
  { intros r Hr. by destruct (results64_elem_of _ _ _ _ _ _ Hc Hr). }
  split.
  - intros r Hr. rewrite (Hbody r Hr).
    cbn [resultAt purityValue wastageValue total percent].
    split_and!; try done. by rewrite B64_eqb_refl.
  - intros pq wq a b Hv Hp Hpq Hw Hwq Hd Ha Hb Hb53.
    destruct (validated64_bounds st a b Hv Ha Hb Hb53) as (Hab & _ & _).
    destruct (results64_Z sweepDecimal fuel sel st a b Hv Ha Hb Hb53)
      as [_ Hres].
    destruct (Hres st' Hc) as [_ Hrs]. clear Hres. rename Hrs into Hres.
    fold p w d in Hres.
    split.
    { rewrite Hres, (seqZ_cons a) by lia. done. }
    intros r Hr. pose proof Hr as Hr'. rewrite Hres in Hr'.
    apply list_elem_of_fmap in Hr' as (k & Hk & Hin).
    apply elem_of_seqZ in Hin.
    destruct (total64_mono pq wq (sweepDecimal (purity st)) k k)
      as [Hnn _]; [done | done | done | lia |].
    fold d in Hnn. rewrite <- Hp, <- Hw, <- Hk in Hnn.
    assert (is_nan (total r) = false) as Hnan.
    { by destruct (total r) as [|[]|q]. }
    split; [done|]. revert Hnan. rewrite (Hbody r Hr).
    cbn [resultAt purityValue wastageValue total percent].
    intros Hnan. by rewrite B64_eqb_refl, Hnan.
Qed.


End Claims64.


(** C9, the claim as stated.  In the gold scenario the result at 8% has
    neither the purity value 66240 nor the total 72000. *)
Lemma gold_scenario_values_inexact :
  ∃ st' r,
    Engine64.calculateAndSelect Gold.purityDecimal 7 None Scenario64.gold
    = Engine64.Returns st' ∧
    find (fun r => B64.eqb (Engine64.percent r) (B64.Fin 8))
      (Engine64.results st') = Some r ∧
    B64.eqb (Engine64.purityValue r) (B64.Fin 66240) = false ∧
    B64.eqb (Engine64.total r) (B64.Fin 72000) = false.
Proof.
  eexists _, _. split; [vm_compute; reflexivity|].
  split; [vm_compute; reflexivity|]. by vm_compute.
Qed.

(** C9, amended.  Gold, price 7200, weight 10, purity 916, range 8 to 14:
    given its 7 turns or more, the sweep returns 7 results, and the result
    at 8% has the wastage value 5760, the purity value 66240 + 2^-36
    (66240.000000000015), the total 72000 + 2^-36 (72000.000000000015) and
    the wastage in grams 7832347178035645 / 2^53 (0.8695652173913043),
    which rounds to 0.8696; these are the values the kernel's binary64
    arithmetic gives for the expressions of the loop body. *)
Theorem gold_scenario_binary64 (fuel : nat) :
  ∃ st',
    Engine64.calculateAndSelect Gold.purityDecimal (7 + fuel) None
      Scenario64.gold = Engine64.Returns st' ∧
    length (Engine64.results st') = 7%nat ∧
    ∃ r,
      find (fun r => B64.eqb (Engine64.percent r) (B64.Fin 8))
        (Engine64.results st') = Some r ∧
      Engine64.selectedResult st' = Some r ∧
      Engine64.wastageValue r = B64.Fin 5760 ∧
      Engine64.purityValue r = B64.Fin (66240 + 1 / 2 ^ 36)%Q ∧
      Engine64.total r = B64.Fin (72000 + 1 / 2 ^ 36)%Q ∧
      Engine64.wastageInGrams r
      = B64.Fin (7832347178035645 # 9007199254740992) ∧
      B64.lt (B64.Fin 0.86955) (Engine64.wastageInGrams r) = true ∧
      B64.lt (Engine64.wastageInGrams r) (B64.Fin 0.86965) = true ∧
      Engine64.purityValue r = B64.of_float (10 * 0.92 * 7200) ∧
      Engine64.wastageValue r = B64.of_float (10 * (8 / 100) * 7200) ∧
      Engine64.total r
      = B64.of_float (10 * 0.92 * 7200 + 10 * (8 / 100) * 7200) ∧
      Engine64.wastageInGrams r
      = B64.of_float (10 * (8 / 100) * 7200 / (7200 * 0.92)).
Proof.
  destruct (results64_Z Gold.purityDecimal (7 + fuel) None Scenario64.gold
              8 14) as [Hret Hres]; [by vm_compute..|].
  destruct Hret as [st' Hc]; [by vm_compute | simpl; lia|].
  exists st'. split; [done|].
  assert ((Engine64.validate Scenario64.gold).1 = true) as Hv
    by (vm_compute; reflexivity).
  destruct (calculateAndSelect64_valid _ _ _ _ _ Hv Hc) as [_ Hsel].
  rewrite Hsel. rewrite (proj2 (Hres st' Hc)). clear.
  split; [by vm_compute|]. eexists. split; [vm_compute; reflexivity|].
  vm_compute. repeat split.
Qed.


(** ** The general statements on the gold scenario *)


Lemma total_is_purity_plus_wastage_witness :
  let st := Scenario64.gold in
  ∃ st' r,
    Engine64.calculateAndSelect Gold.purityDecimal 7 None st
    = Engine64.Returns st' ∧
    (Engine64.validate st).1 = true ∧
    B64.parseFloat (Engine64.price st) = B64.Fin 7200 ∧
    B64.parseFloat (Engine64.weight st) = B64.Fin 10 ∧
    Engine64.results st' !! 1%nat = Some r ∧
    Engine64.percent r = B64.Fin 9 ∧
    Engine64.purityValue r = B64.Fin (66240 + 1 / 2 ^ 36)%Q ∧
    Engine64.wastageValue r = B64.Fin (6480 - 1 / 2 ^ 40)%Q ∧
    Engine64.total r = B64.Fin (72720 + 1 / 2 ^ 36)%Q ∧
    Engine64.purityValue r
    = B64.mul (B64.mul (B64.Fin 10) (B64.round 0.92)) (B64.Fin 7200) ∧
    Engine64.total r
    = B64.add (Engine64.purityValue r) (Engine64.wastageValue r) ∧
    B64.is_nan (Engine64.total r) = false ∧
    B64.eqb (Engine64.total r)
      (B64.add (Engine64.purityValue r) (Engine64.wastageValue r)) = true.
Proof.
  cbn zeta.
  destruct (Engine64.calculateAndSelect Gold.purityDecimal 7 None
              Scenario64.gold) as [| |st'] eqn:Hc;
    [vm_compute in Hc; discriminate Hc | vm_compute in Hc; discriminate Hc |].
  assert ((Engine64.validate Scenario64.gold).1 = true) as Hv
    by (vm_compute; reflexivity).
  destruct (results64_Z Gold.purityDecimal 7 None Scenario64.gold 8 14)
    as [_ Hres]; [done | reflexivity | reflexivity | lia |].
  destruct (Hres st' Hc) as [_ Hrs]. clear Hres. rename Hrs into Hres.
  destruct (total_is_purity_plus_wastage Gold.purityDecimal 7 None
              Scenario64.gold st' Hc) as [Hsum Hnum].
  destruct (Hnum 7200%Q 10%Q 8 14) as [_ Hnan];
    [done | vm_compute; reflexivity | reflexivity | vm_compute; reflexivity
    | reflexivity | vm_compute; discriminate | reflexivity | reflexivity
    | lia |].
  exists st'. rewrite Hres in *. eexists.
  split; [reflexivity|]. split; [done|].
  split; [vm_compute; reflexivity|]. split; [vm_compute; reflexivity|].
  split; [vm_compute; reflexivity|].
  match goal with
  | |- Engine64.percent ?r = _ ∧ _ =>
      assert (r ∈ (λ k, Engine64.resultAt
                          (B64.parseFloat (Engine64.price Scenario64.gold))
                          (B64.parseFloat (Engine64.weight Scenario64.gold))
                          (B64.round (Gold.purityDecimal
                                        (Engine64.purity Scenario64.gold)))
                          (B64.Fin (inject_Z k))) <$> seqZ 8 (14 - 8 + 1))
        as Hr by (apply list_elem_of_lookup; exists 1%nat;
                  vm_compute; reflexivity)
  end.
  split; [vm_compute; reflexivity|]. split; [vm_compute; reflexivity|].
  split; [vm_compute; reflexivity|]. split; [vm_compute; reflexivity|].
  split; [apply (Hsum _ Hr)|]. split; [apply (Hsum _ Hr)|].
  split; [apply (Hnan _ Hr) | apply (Hnan _ Hr)].
Defined.


(** * Further properties of the calculator *)

(** ** What the validator accepts *)

Section ValidatorMore.
Context {P SP : Type}.
Implicit Types st : Engine.State P SP.
Import Engine.

Lemma parseFloat_empty : JS.parseFloat "" = JS.NaN.
Proof. reflexivity. Qed.

Lemma parseInt_empty : JS.parseInt "" = JS.INaN.
Proof. reflexivity. Qed.

Lemma validate_parsed st p w a b :
  JS.parseFloat (price st) = JS.Num p →
  JS.parseFloat (weight st) = JS.Num w →
  JS.parseInt (minPercent st) = JS.Int a →
  JS.parseInt (maxPercent st) = JS.Int b →
  (validate st).1 = true ↔ (0 < p)%Q ∧ (0 < w)%Q ∧ 0 <= a <= b.
Proof.
  intros Hp Hw Ha Hb.
  assert (price st ≠ "") as Hpe by (intros E; by rewrite E in Hp).
  assert (weight st ≠ "") as Hwe by (intros E; by rewrite E in Hw).
  assert (minPercent st ≠ "") as Hae by (intros E; by rewrite E in Ha).
  assert (maxPercent st ≠ "") as Hbe by (intros E; by rewrite E in Hb).
  rewrite validate_ok, newErrors_empty. split.
  - intros Hnone.
    pose proof (Hnone F_price) as H1. pose proof (Hnone F_weight) as H2.
    pose proof (Hnone F_minPercent) as H3.
    pose proof (Hnone F_maxPercent) as H4.
    rewrite newErrors_lookup_price, Hp in H1.
    rewrite newErrors_lookup_weight, Hw in H2.
    rewrite newErrors_lookup_minPercent, Ha in H3.
    rewrite newErrors_lookup_maxPercent, Ha, Hb in H4.
    simpl in *.
    destruct (JS.falsy (price st)); [done|].
    destruct (JS.falsy (weight st)); [done|].
    destruct (JS.falsy (minPercent st)); [done|].
    simpl in *.
    destruct (Qle_bool p 0) eqn:E1; [done|].
    destruct (Qle_bool w 0) eqn:E2; [done|].
    destruct (a <? 0) eqn:E3; [done|].
    destruct (b <? a) eqn:E4; [done|].
    apply Z.ltb_ge in E3, E4.
    split_and!; try lia.
    + apply Qnot_le_lt. intros Hle%Qle_bool_iff. congruence.
    + apply Qnot_le_lt. intros Hle%Qle_bool_iff. congruence.
  - intros (Hp0 & Hw0 & Ha0 & Hab) f.
    assert (Qle_bool p 0 = false) as E1.
    { apply not_true_iff_false. intros Hle%Qle_bool_iff.
      by apply Qlt_not_le in Hp0. }
    assert (Qle_bool w 0 = false) as E2.
    { apply not_true_iff_false. intros Hle%Qle_bool_iff.
      by apply Qlt_not_le in Hw0. }
    assert (JS.falsy (price st) = false) as F1
      by (apply not_true_iff_false; by intros ?%falsy_true).
    assert (JS.falsy (weight st) = false) as F2
      by (apply not_true_iff_false; by intros ?%falsy_true).
    assert (JS.falsy (minPercent st) = false) as F3
      by (apply not_true_iff_false; by intros ?%falsy_true).
    assert (JS.falsy (maxPercent st) = false) as F4
      by (apply not_true_iff_false; by intros ?%falsy_true).
    destruct f.
    + rewrite newErrors_lookup_price, Hp, F1. simpl. by rewrite E1.
    + rewrite newErrors_lookup_weight, Hw, F2. simpl. by rewrite E2.
    + rewrite newErrors_lookup_minPercent, Ha, F3. simpl.
      by destruct (Z.ltb_spec a 0); [lia|].
    + rewrite newErrors_lookup_maxPercent, Ha, Hb, F4. simpl.
      destruct (Z.ltb_spec b a); [lia|]. by destruct (Z.ltb_spec b 0); [lia|].
Qed.

(** X1.  On a form whose four texts parse, [validate] answers [true] exactly when
    the price and the weight are [> 0] and the bounds satisfy
    [0 <= min <= max]. *)
Theorem validate_numeric st p w a b :
  JS.parseFloat (price st) = JS.Num p →
  JS.parseFloat (weight st) = JS.Num w →
  JS.parseInt (minPercent st) = JS.Int a →
  JS.parseInt (maxPercent st) = JS.Int b →
  (validate st).1 = true ↔ (0 < p)%Q ∧ (0 < w)%Q ∧ 0 <= a <= b.
Proof. apply validate_parsed. Qed.

(** X2.  The message on [maxPercent] is 'Max must be >= min' exactly when both
    bounds parse and the lower one is the greater, whatever else is wrong
    with the form. *)
Theorem range_inverted_flag st :
  errors (validate st).2 !! F_maxPercent = Some "Max must be >= min" ↔
  ∃ a b, JS.parseInt (minPercent st) = JS.Int a ∧
         JS.parseInt (maxPercent st) = JS.Int b ∧ b < a.
Proof.
  rewrite validate_state. cbn [errors setErrors].
  rewrite newErrors_lookup_maxPercent.
  destruct (JS.igt _ _) eqn:Hgt.
  - apply ilt_true in Hgt as (x & y & Hx & Hy & Hxy). split; [|done].
    intros _. by exists y, x.
  - split.
    + by destruct (_ || _).
    + intros (a & b & Ha & Hb & Hab). rewrite Ha, Hb in Hgt. simpl in Hgt. lia.
Qed.

End ValidatorMore.

(** ** What the sweep and the selection do at the edges *)

Section SweepMore.
Context {P SP : Type}.
Variable sweepDecimal : SP → Q.
Variable savedPurity : SP → P.
Implicit Types st : Engine.State P SP.
Import Engine.

Lemma fields_calculateAndSelect sel st :
  let st' := calculateAndSelect sweepDecimal sel st in
  price st' = price st ∧ weight st' = weight st ∧ purity st' = purity st ∧
  minPercent st' = minPercent st ∧ maxPercent st' = maxPercent st ∧
  errors st' = newErrors st ∧
  savedCalculations st' = savedCalculations st ∧
  loadRequest st' = loadRequest st.
Proof.
  unfold calculateAndSelect. destruct (validate st) as [ok st1] eqn:Hv.
  assert (st1 = setErrors (newErrors st) st) as ->
    by (unfold validate in Hv; congruence).
  destruct ok; simpl; [by destruct sel | done].
Qed.

Lemma validate_calculateAndSelect sel st :
  (validate (calculateAndSelect sweepDecimal sel st)).1 = (validate st).1.
Proof.
  destruct (fields_calculateAndSelect sel st) as (H1 & H2 & _ & H4 & H5 & _).
  unfold validate, newErrors. cbn [fst]. by rewrite H1, H2, H4, H5.
Qed.

Lemma results_nonempty sel st a b :
  (validate st).1 = true →
  JS.parseInt (minPercent st) = JS.Int a →
  JS.parseInt (maxPercent st) = JS.Int b →
  results (calculateAndSelect sweepDecimal sel st) ≠ [].
Proof.
  intros Hv Ha Hb Hnil.
  pose proof (percent_results sweepDecimal sel st a b Hv Ha Hb) as Hps.
  apply validate_ok in Hv.
  pose proof (validated_bounds st a b Hv Ha Hb).
  rewrite Hnil, seqZ_cons in Hps by lia. done.
Qed.

(** X3.  A form that fails validation gets no sweep and no save: the results are
    emptied, the selection is none, the errors are set and are not empty,
    the five fields stay as typed, and neither [calculateAndSelect] nor
    [handleSave] touches the saved calculations. *)
Theorem failed_validation_blocks sel now st :
  (validate st).1 = false →
  let st' := calculateAndSelect sweepDecimal sel st in
  results st' = [] ∧ selectedResult st' = None ∧
  errors st' = newErrors st ∧ newErrors st ≠ ∅ ∧
  price st' = price st ∧ weight st' = weight st ∧
  minPercent st' = minPercent st ∧ maxPercent st' = maxPercent st ∧
  savedCalculations st' = savedCalculations st ∧
  savedCalculations (handleSave savedPurity now st) = savedCalculations st.
Proof.
  intros Hv st'.
  destruct (fields_calculateAndSelect sel st)
    as (H1 & H2 & _ & H4 & H5 & H6 & H7 & _).
  assert (results st' = []) as Hrs
    by (subst st'; by rewrite results_calculateAndSelect, Hv).
  split_and!; try done.
  - subst st'. rewrite selectedResult_calculateAndSelect, Hrs. by destruct sel.
  - intros He%validate_ok. congruence.
  - by rewrite savedCalculations_handleSave, Hv.
Qed.

(** X4.  On a form whose upper bound is no integer from 2^32 - 1 on, so that
    the loop counter is exact and the results fit in an array: the selection
    is none exactly when the sweep returned nothing, which happens exactly
    when validation fails or a bound does not parse; a selection, when there
    is one, is one of the results. *)
Theorem selection_none_iff sel st :
  (∀ b, JS.parseInt (maxPercent st) = JS.Int b → b < 2 ^ 32 - 1) →
  let st' := calculateAndSelect sweepDecimal sel st in
  (selectedResult st' = None ↔ results st' = []) ∧
  (results st' = [] ↔
   (validate st).1 = false ∨ JS.parseInt (minPercent st) = JS.INaN
   ∨ JS.parseInt (maxPercent st) = JS.INaN) ∧
  (∀ r, selectedResult st' = Some r → r ∈ results st').
Proof.
  intros _ st'. split_and!.
  - subst st'. rewrite selectedResult_calculateAndSelect.
    destruct sel as [target|].
    + destruct (find _ _) as [r|] eqn:Hf.
      * apply find_some in Hf as [Hin _]. split; [done|].
        intros Hnil. rewrite Hnil in Hin. done.
      * apply head_None.
    + apply head_None.
  - split.
    + intros Hnil.
      destruct (validate st).1 eqn:Hv; [|by left]. right.
      destruct (JS.parseInt (minPercent st)) as [|a] eqn:Ha; [by left|].
      destruct (JS.parseInt (maxPercent st)) as [|b] eqn:Hb; [by right|].
      by destruct (results_nonempty sel st a b Hv Ha Hb).
    + subst st'. rewrite results_calculateAndSelect.
      intros [->|[->| ->]]; [done| |].
      * by destruct (validate st).1.
      * destruct (validate st).1; [|done].
        by destruct (JS.parseInt (minPercent st)).
  - apply selectedResult_elem_of.
Qed.

(** X5.  [handleCalculate] on a validated form whose bounds are integers, the
    upper one below 2^32 - 1, selects the first result, which is the one at
    the lower bound. *)
Theorem handleCalculate_selects_minimum st a b :
  (validate st).1 = true →
  JS.parseInt (minPercent st) = JS.Int a →
  JS.parseInt (maxPercent st) = JS.Int b →
  b < 2 ^ 32 - 1 →
  ∃ r,
    selectedResult (handleCalculate sweepDecimal st) = Some r ∧
    head (results (handleCalculate sweepDecimal st)) = Some r ∧
    percent r = a.
Proof.
  intros Hv Ha Hb _. unfold handleCalculate.
  pose proof (validated_bounds st a b (proj1 (validate_ok st) Hv) Ha Hb).
  destruct (selectedResult_in_range sweepDecimal None st a b a Hv Ha Hb)
    as (r & Hsel & Hp); [lia | by right |].
  exists r. split_and!; [done| |done].
  by rewrite selectedResult_calculateAndSelect in Hsel.
Qed.

End SweepMore.

(** ** How saving and deleting compose *)

Section StoreMore.
Context {P SP : Type}.
Variable savedPurity : SP → P.
Implicit Types st : Engine.State P SP.
Import Engine.

Lemma filter_all {A} (Q : A → Prop) `{∀ x, Decision (Q x)} (l : list A) :
  Forall Q l → filter Q l = l.
Proof.
  induction 1 as [|x l Hx _ IH]; [done|].
  by rewrite filter_cons_True, IH.
Qed.

Lemma ids_filter id (l : list (Engine.CalculationParams P)) :
  p_id <$> filter (fun c => p_id c ≠ id) l
  = filter (fun i => i ≠ id) (p_id <$> l).
Proof.
  induction l as [|c l IH]; [done|].
  rewrite fmap_cons, (filter_cons _ (p_id c)), filter_cons.
  destruct (decide (p_id c ≠ id)); [rewrite fmap_cons|]; by rewrite IH.
Qed.

Lemma handleSave_keeps_form now st :
  let st' := handleSave savedPurity now st in
  price st' = price st ∧ weight st' = weight st ∧ purity st' = purity st ∧
  minPercent st' = minPercent st ∧ maxPercent st' = maxPercent st ∧
  results st' = results st ∧ selectedResult st' = selectedResult st.
Proof.
  unfold handleSave. destruct (validate st) as [ok st1] eqn:Hv.
  assert (st1 = setErrors (newErrors st) st) as ->
    by (unfold validate in Hv; congruence).
  by destruct ok.
Qed.

Lemma validate_handleSave now st :
  (validate (handleSave savedPurity now st)).1 = (validate st).1.
Proof.
  destruct (handleSave_keeps_form now st) as (H1 & H2 & _ & H4 & H5 & _).
  unfold validate, newErrors. cbn [fst]. by rewrite H1, H2, H4, H5.
Qed.

Lemma deleteCalculation_absent id st :
  (∀ c, c ∈ savedCalculations st → p_id c ≠ id) →
  deleteCalculation id st = st.
Proof.
  intros Hne. unfold deleteCalculation, setSavedCalculations.
  rewrite filter_all by (by apply Forall_forall). by destruct st.
Qed.

(** X8.  Deleting an id that no saved calculation carries changes nothing, in
    the saved calculations and in the rest of the component. *)
Theorem delete_absent_noop id st :
  (∀ c, c ∈ savedCalculations st → p_id c ≠ id) →
  deleteCalculation id st = st.
Proof. apply deleteCalculation_absent. Qed.

(** X9.  [deleteCalculation] removes every saved calculation that carries the id
    and no other: what is left are the others, in their order; deleting the
    same id again changes nothing. *)
Theorem delete_removes_exactly id st :
  let st' := deleteCalculation id st in
  (∀ c, c ∈ savedCalculations st' ↔ c ∈ savedCalculations st ∧ p_id c ≠ id) ∧
  savedCalculations st' `sublist_of` savedCalculations st ∧
  (id ∉ (p_id <$> savedCalculations st')) ∧
  deleteCalculation id st' = st'.
Proof.
  intros st'. subst st'. rewrite savedCalculations_deleteCalculation.
  split_and!.
  - intros c. rewrite list_elem_of_filter. tauto.
  - apply sublist_filter.
  - rewrite ids_filter. rewrite list_elem_of_filter. tauto.
  - apply deleteCalculation_absent. intros c.
    rewrite savedCalculations_deleteCalculation, list_elem_of_filter. tauto.
Qed.

(** X10.  Deleting the entry just saved, when its id is fresh, leaves the first 9
    of the earlier entries: the store is back as it was when it held at most
    9, and the entry evicted by the save is not brought back when it held
    10. *)
Theorem save_then_delete now st :
  (validate st).1 = true →
  (∀ c, c ∈ savedCalculations st → p_id c ≠ now) →
  savedCalculations (deleteCalculation now (handleSave savedPurity now st))
  = take 9 (savedCalculations st) ∧
  ((length (savedCalculations st) <= 9)%nat →
   savedCalculations (deleteCalculation now (handleSave savedPurity now st))
   = savedCalculations st).
Proof.
  intros Hv Hfresh.
  assert (savedCalculations
            (deleteCalculation now (handleSave savedPurity now st))
          = take 9 (savedCalculations st)) as Heq.
  { rewrite savedCalculations_deleteCalculation, savedCalculations_handleSave.
    rewrite Hv. rewrite filter_cons_False by (simpl; tauto).
    apply filter_all, Forall_forall. intros c Hc. apply Hfresh.
    by eapply elem_of_sublist; [|apply sublist_take]. }
  split; [done|]. intros Hlen. rewrite Heq. by apply take_ge.
Qed.

(** X11.  The ids of the saved calculations stay pairwise different: under a save
    whose id is fresh, and under any delete. *)
Theorem ids_stay_unique now id st :
  NoDup (p_id <$> savedCalculations st) →
  (∀ c, c ∈ savedCalculations st → p_id c ≠ now) →
  NoDup (p_id <$> savedCalculations (handleSave savedPurity now st)) ∧
  NoDup (p_id <$> savedCalculations (deleteCalculation id st)).
Proof.
  intros Hnd Hfresh. split.
  - rewrite savedCalculations_handleSave. destruct (validate st).1; [|done].
    rewrite fmap_cons. cbn [p_id]. apply NoDup_cons. split.
    + intros (c & Hid & Hc)%list_elem_of_fmap.
      apply (Hfresh c); [|done].
      by eapply elem_of_sublist; [|apply sublist_take].
    + rewrite fmap_take. eapply sublist_NoDup; [done|apply sublist_take].
  - rewrite savedCalculations_deleteCalculation, ids_filter.
    by apply NoDup_filter.
Qed.

Lemma take_app_take {A} (l k : list A) n m :
  (n <= m + length l)%nat →
  take n (l ++ take m k) = take n (l ++ k).
Proof.
  intros Hle. rewrite !take_app, take_take. do 2 f_equal. lia.
Qed.

(** X12.  Saving several times in a row, from a validated form and a store of at
    most 10, leaves the 10 newest of the new entries followed by the old
    ones: the store is first-in first-out. *)
Theorem saves_are_fifo nows st :
  (validate st).1 = true →
  (length (savedCalculations st) <= 10)%nat →
  let newSave now :=
    mkParams now (price st) (weight st) (savedPurity (purity st))
      (minPercent st) (maxPercent st) (percent <$> selectedResult st) in
  savedCalculations (foldl (fun s now => handleSave savedPurity now s) st nows)
  = take 10 (reverse (newSave <$> nows) ++ savedCalculations st).
Proof.
  revert st. induction nows as [|now nows IH]; intros st Hv Hlen.
  - simpl. by rewrite take_ge.
  - cbn [foldl]. cbn zeta in *. rewrite IH.
    + destruct (handleSave_keeps_form now st) as (H1 & H2 & H3 & H4 & H5 & _ & H7).
      cbn zeta in *. rewrite H1, H2, H3, H4, H5, H7.
      rewrite savedCalculations_handleSave, Hv.
      rewrite fmap_cons, reverse_cons.
      rewrite (cons_middle _ (reverse _) (take 9 _)), app_assoc.
      apply take_app_take. rewrite length_app. simpl. lia.
    + by rewrite validate_handleSave.
    + by apply handleSave_capacity.
Qed.

End StoreMore.

(** ** Saving, replaying and loading *)

Section ReplayMore.
Context {P SP : Type}.
Variable replayDecimal : P → Q.
Variable sweepDecimal : SP → Q.
Variable savedPurity : SP → P.
Variable loadPurity : P → SP → SP.
Implicit Types st : Engine.State P SP.
Import Engine.

Lemma validate_same_fields (st1 st2 : Engine.State P SP) :
  price st1 = price st2 → weight st1 = weight st2 →
  minPercent st1 = minPercent st2 → maxPercent st1 = maxPercent st2 →
  (validate st1).1 = (validate st2).1.
Proof.
  intros H1 H2 H3 H4. unfold validate, newErrors. cbn [fst].
  by rewrite H1, H2, H3, H4.
Qed.

Lemma selectedResult_None sel st :
  selectedResult (calculateAndSelect sweepDecimal sel st) = None →
  results (calculateAndSelect sweepDecimal sel st) = [].
Proof.
  rewrite selectedResult_calculateAndSelect. destruct sel as [target|].
  - destruct (find _ _); [done|]. apply head_None.
  - apply head_None.
Qed.

(** The first saved calculation after a save that passed validation. *)
Lemma head_handleSave now st :
  (validate st).1 = true →
  savedCalculations (handleSave savedPurity now st) !! 0%nat
  = Some (mkParams now (price st) (weight st) (savedPurity (purity st))
            (minPercent st) (maxPercent st) (percent <$> selectedResult st)).
Proof. intros Hv. by rewrite savedCalculations_handleSave, Hv. Qed.

(** X13.  In a component whose replay decimal is the sweep decimal of the saved
    purity: saving right after a sweep stores an entry whose replay total is
    the total of the selected result. *)
Theorem save_then_replay sel now st r :
  (∀ s, replayDecimal (savedPurity s) = sweepDecimal s) →
  let st' := calculateAndSelect sweepDecimal sel st in
  selectedResult st' = Some r →
  ∃ c,
    savedCalculations (handleSave savedPurity now st') !! 0%nat = Some c ∧
    p_id c = now ∧
    p_selectedPercent c = Some (percent r) ∧
    calculateTotalFromParams replayDecimal c = total r.
Proof.
  intros Hdec st' Hsel.
  pose proof (selectedResult_elem_of sweepDecimal sel st r Hsel) as Hr.
  destruct (elem_of_results sweepDecimal sel st r Hr)
    as (a & b & Hv & _ & _ & _ & Hbody).
  destruct (fields_calculateAndSelect sweepDecimal sel st)
    as (H1 & H2 & H3 & H4 & H5 & _).
  fold st' in H1, H2, H3, H4, H5.
  eexists. split.
  { apply head_handleSave. subst st'.
    by rewrite validate_calculateAndSelect. }
  split; [done|]. rewrite Hsel. split; [done|].
  unfold calculateTotalFromParams, replayPercent.
  cbn [p_price p_weight p_purity p_selectedPercent fmap option_fmap option_map].
  rewrite H1, H2, H3, Hdec. by rewrite Hbody at 2.
Qed.

(** X14.  In such a component: saving a validated form on which nothing is
    selected and whose bounds are integers, the upper one below 2^32 - 1,
    stores an entry without a percent, and its replay total is the total of
    the result that [handleCalculate] selects on that form, the one at the
    lower bound. *)
Theorem save_without_selection_replays_minimum now st a b :
  (∀ s, replayDecimal (savedPurity s) = sweepDecimal s) →
  (validate st).1 = true →
  selectedResult st = None →
  JS.parseInt (minPercent st) = JS.Int a →
  JS.parseInt (maxPercent st) = JS.Int b →
  b < 2 ^ 32 - 1 →
  ∃ c r,
    savedCalculations (handleSave savedPurity now st) !! 0%nat = Some c ∧
    p_selectedPercent c = None ∧
    selectedResult (handleCalculate sweepDecimal st) = Some r ∧
    percent r = a ∧
    calculateTotalFromParams replayDecimal c = total r.
Proof.
  intros Hdec Hv Hnone Ha Hb _.
  pose proof (validated_bounds st a b (proj1 (validate_ok st) Hv) Ha Hb).
  destruct (selectedResult_in_range sweepDecimal None st a b a Hv Ha Hb)
    as (r & Hsel & Hp); [lia | by right |].
  pose proof (selectedResult_elem_of sweepDecimal None st r Hsel) as Hr.
  destruct (elem_of_results sweepDecimal None st r Hr)
    as (_ & _ & _ & _ & _ & _ & Hbody).
  eexists _, r. split; [by apply head_handleSave|].
  rewrite Hnone. split; [done|]. split; [done|]. split; [done|].
  unfold calculateTotalFromParams, replayPercent.
  cbn [p_price p_weight p_purity p_selectedPercent p_minPercent
       fmap option_fmap option_map].
  rewrite Ha, Hdec, <- Hp. by rewrite Hbody at 2.
Qed.

(** X15.  Saving right after [Calculate] on a form whose upper bound is no
    integer from 2^32 - 1 on, with any result of the list picked as the
    selection, and loading the saved entry later, on whatever the form then
    holds, brings back the price and the weight, the same list of results
    and the same selection, and clears the load request; the saved
    calculations are not touched by the load.  Nothing is said of the two
    bounds, which the effect on the purity may reset in the same commit. *)
Theorem save_then_load_restores now st st2 r :
  (∀ s s2, sweepDecimal (loadPurity (savedPurity s) s2) = sweepDecimal s) →
  (validate st).1 = true →
  (∀ b, JS.parseInt (maxPercent st) = JS.Int b → b < 2 ^ 32 - 1) →
  r ∈ results (handleCalculate sweepDecimal st) →
  let st1 := setSelectedResult (Some r) (handleCalculate sweepDecimal st) in
  ∃ c,
    savedCalculations (handleSave savedPurity now st1) !! 0%nat = Some c ∧
    p_selectedPercent c = Some (percent r) ∧
    let st3 := loadRequestEffect sweepDecimal (loadCalculation loadPurity c st2) in
    price st3 = price st ∧ weight st3 = weight st ∧
    results st3 = results st1 ∧
    selectedResult st3 = selectedResult st1 ∧
    loadRequest st3 = None ∧
    savedCalculations st3 = savedCalculations st2.
Proof.
  intros Hload Hv _ Hr st1. unfold handleCalculate in *.
  destruct (fields_calculateAndSelect sweepDecimal None st)
    as (H1 & H2 & H3 & H4 & H5 & _).
  assert (price st1 = price st ∧ weight st1 = weight st ∧
          purity st1 = purity st ∧ minPercent st1 = minPercent st ∧
          maxPercent st1 = maxPercent st) as (F1 & F2 & F3 & F4 & F5)
    by done.
  assert (results st1 = results (calculateAndSelect sweepDecimal None st))
    as Rs1 by done.
  assert (selectedResult st1 = Some r) as Sel1 by done.
  eexists. split.
  { apply head_handleSave. rewrite <- Hv. by apply validate_same_fields. }
  rewrite F1, F2, F3, F4, F5, Sel1.
  cbn [fmap option_fmap option_map p_selectedPercent].
  split; [done|].
  set (c := mkParams now (price st) (weight st) (savedPurity (purity st))
              (minPercent st) (maxPercent st) (Some (percent r))).
  set (L := loadCalculation loadPurity c st2).
  cbn zeta. unfold loadRequestEffect.
  replace (loadRequest L) with (Some c) by reflexivity.
  replace (p_selectedPercent c) with (Some (percent r)) by reflexivity.
  destruct (fields_calculateAndSelect sweepDecimal (Some (percent r)) L)
    as (G1 & G2 & _ & G4 & G5 & _ & G7 & _).
  assert ((validate L).1 = true) as HvL.
  { rewrite <- Hv. by apply validate_same_fields. }
  assert (results (calculateAndSelect sweepDecimal (Some (percent r)) L)
          = results st1) as Hrs.
  { rewrite Rs1, !results_calculateAndSelect, HvL, Hv.
    subst L. cbn [loadCalculation price weight purity minPercent maxPercent
                  p_price p_weight p_purity p_minPercent p_maxPercent c].
    by rewrite Hload. }
  split_and!; try done.
  cbn [selectedResult setLoadRequest].
  rewrite selectedResult_calculateAndSelect.
  rewrite (find_results sweepDecimal (Some (percent r)) L (percent r) r);
    [done | by rewrite Hrs, Rs1 | done].
Qed.

End ReplayMore.

(** ** The five-tap close *)

Lemma taps_keep_open (m : View.Modal) (n : nat) :
  View.showCustomerView m = true →
  0 <= View.closeClickCount m →
  View.closeClickCount m + Z.of_nat n < 5 →
  Nat.iter n View.tapTitle m
  = View.mkModal true (View.closeClickCount m + Z.of_nat n).
Proof.
  intros Hshow Hk. induction n as [|n IH]; intros Hlt.
  - simpl. destruct m as [s k]. simpl in *. subst.
    f_equal. lia.
  - rewrite Nat.iter_succ, IH by lia. unfold View.tapTitle.
    cbn [View.closeClickCount View.showCustomerView].
    destruct (Z.leb_spec 5 (View.closeClickCount m + Z.of_nat n + 1)); [lia|].
    f_equal. lia.
Qed.

(** X17.  From an open modal whose counter is [k], with [0 <= k < 5]: the modal
    stays open through the next [4 - k] taps on its title, counting them,
    and the tap after those closes it and puts the counter back to 0.  The
    button that opens the modal sets the counter to 0, so a modal just
    opened closes on the fifth tap and not before. *)
Theorem five_taps_close (m : View.Modal) (n : nat) :
  View.showCustomerView m = true →
  0 <= View.closeClickCount m →
  View.closeClickCount m + Z.of_nat n = 4 →
  (∀ i, (i <= n)%nat →
        Nat.iter i View.tapTitle m
        = View.mkModal true (View.closeClickCount m + Z.of_nat i)) ∧
  Nat.iter (S n) View.tapTitle m = View.mkModal false 0 ∧
  (∀ m0 i, (i < 5)%nat →
        Nat.iter i View.tapTitle (View.openView m0)
        = View.mkModal true (Z.of_nat i)) ∧
  (∀ m0, Nat.iter 5 View.tapTitle (View.openView m0) = View.mkModal false 0).
Proof.
  intros Hshow Hk Hn. split_and!.
  - intros i Hi. apply taps_keep_open; [done..|lia].
  - rewrite Nat.iter_succ, taps_keep_open by (done || lia).
    unfold View.tapTitle. cbn [View.closeClickCount View.showCustomerView].
    by destruct (Z.leb_spec 5 (View.closeClickCount m + Z.of_nat n + 1)); [|lia].
  - intros m0 i Hi. rewrite taps_keep_open; [done..|simpl; lia].
  - reflexivity.
Qed.

(** ** The default bounds *)

Lemma length_results {P SP : Type} (d : SP → Q) sel
    (st : Engine.State P SP) a b :
  (Engine.validate st).1 = true →
  JS.parseInt (Engine.minPercent st) = JS.Int a →
  JS.parseInt (Engine.maxPercent st) = JS.Int b →
  length (Engine.results (Engine.calculateAndSelect d sel st))
  = Z.to_nat (b - a + 1).
Proof.
  intros Hv Ha Hb.
  by rewrite <- (length_fmap percent), (percent_results d sel st a b),
    length_seqZ.
Qed.

(** X18.  Whatever the purity, the bounds written by the purity effect pass
    validation once the price and the weight are numbers [> 0], and
    [handleCalculate] then returns one result for each percent of the
    default range: 7 and 9 results for gold 916 and 750, 9 and 8 for silver
    925 and 999. *)
Theorem purity_defaults_are_valid :
  (∀ (st : Gold.State) p w,
     JS.parseFloat (Engine.price st) = JS.Num p → (0 < p)%Q →
     JS.parseFloat (Engine.weight st) = JS.Num w → (0 < w)%Q →
     let st' := PurityEffect.gold st in
     (Gold.validate st').1 = true ∧
     length (Engine.results (Gold.calculateAndSelect None st'))
     = match Engine.purity st with Gold.P916 => 7 | Gold.P750 => 9 end%nat) ∧
  (∀ (st : Silver.State) p w,
     JS.parseFloat (Engine.price st) = JS.Num p → (0 < p)%Q →
     JS.parseFloat (Engine.weight st) = JS.Num w → (0 < w)%Q →
     let st' := PurityEffect.silver st in
     (Silver.validate st').1 = true ∧
     length (Engine.results (Silver.calculateAndSelect None st'))
     = match Engine.purity st with Silver.P925 => 9 | Silver.P999 => 8 end%nat).
Proof.
  split; intros st p w Hp Hpos Hw Hwpos st'; subst st';
    unfold PurityEffect.gold, PurityEffect.silver;
    destruct (Engine.purity st);
    match goal with
    | |- context [PurityEffect.setBounds ?lo ?hi st] =>
        assert ((Engine.validate (PurityEffect.setBounds lo hi st)).1 = true)
          as Hv
          by (apply (validate_parsed _ p w
                       (match JS.parseInt lo with JS.Int z => z | _ => 0 end)
                       (match JS.parseInt hi with JS.Int z => z | _ => 0 end));
              [done | done | reflexivity | reflexivity
              | split_and!; [done | done | by vm_compute | by vm_compute]]);
        split; [exact Hv|];
        unfold Gold.calculateAndSelect, Silver.calculateAndSelect;
        rewrite (length_results _ None _ _ _ Hv eq_refl eq_refl);
        reflexivity
    end.
Qed.

(** ** The install banner *)

Section InstallPromptFacts.
Import InstallPrompt.

Lemma dismissed_handleDismiss s : dismissed (handleDismiss s) = true.
Proof.
  unfold dismissed, handleDismiss. cbn [localStorage].
  by rewrite lookup_insert_eq.
Qed.

Lemma dismissed_mkState d sh i l s :
  dismissed (mkState d sh i l (localStorage s)) = dismissed s.
Proof. reflexivity. Qed.

Lemma banner_inv_mount b storage : banner_inv (mount b storage).
Proof. by destruct b. Qed.

Lemma banner_inv_step s ev : banner_inv s → banner_inv (step s ev).
Proof.
  intros Hinv. pose proof Hinv as (Hd & Hs & Hl).
  destruct ev as [e| | | |b]; cbn [step].
  - destruct (listening s) eqn:Hlis; [|exact Hinv].
    unfold handleBeforeInstallPrompt, banner_inv.
    cbn [showPrompt deferredPrompt listening isInstalled].
    rewrite dismissed_mkState.
    destruct (dismissed s); simpl; split_and!; eauto; try done.
  - destruct (listening s) eqn:Hlis; [|exact Hinv]. unfold banner_inv.
    cbn [handleAppInstalled showPrompt deferredPrompt listening isInstalled].
    done.
  - unfold handleInstallClick.
    destruct (deferredPrompt s) eqn:Hdef; [|exact Hinv]. unfold banner_inv.
    cbn [showPrompt deferredPrompt listening isInstalled]. done.
  - unfold banner_inv, handleDismiss.
    cbn [showPrompt deferredPrompt listening isInstalled]. done.
  - apply banner_inv_mount.
Qed.

Lemma banner_inv_run evs s : banner_inv s → banner_inv (run evs s).
Proof.
  unfold run. revert s. induction evs as [|ev evs IH]; intros s Hs; [done|].
  cbn [foldl]. by apply IH, banner_inv_step.
Qed.

(** X19.  After "Later" the banner is never rendered again, whatever events
    follow, mounting the component again included: the flag written to
    [localStorage] stays set. *)
Theorem dismissed_forever evs s :
  visible (run evs (handleDismiss s)) = false ∧
  dismissed (run evs (handleDismiss s)) = true.
Proof.
  assert (∀ evs s, dismissed s = true → showPrompt s = false →
            showPrompt (run evs s) = false ∧ dismissed (run evs s) = true)
    as Hrun.
  { clear. unfold run. intros evs. induction evs as [|ev evs IH];
      intros s Hd Hs; [done|].
    cbn [foldl]. apply IH.
    - destruct ev as [e| | | |b]; cbn [step]; try done.
      + by destruct (listening s).
      + by destruct (listening s).
      + unfold handleInstallClick. by destruct (deferredPrompt s).
      + apply dismissed_handleDismiss.
      + by destruct b.
    - destruct ev as [e| | | |b]; cbn [step]; try done.
      + destruct (listening s); [|done].
        unfold handleBeforeInstallPrompt. cbn [showPrompt]. by rewrite Hd.
      + by destruct (listening s).
      + unfold handleInstallClick. by destruct (deferredPrompt s).
      + by destruct b. }
  destruct (Hrun evs (handleDismiss s)) as [Hs Hd];
    [apply dismissed_handleDismiss | done |].
  split; [|done]. unfold visible. rewrite Hs. simpl.
  by rewrite orb_true_r.
Qed.

(** X20.  Whatever happened since the component was mounted, a
    [beforeinstallprompt] event brings the banner up exactly when the
    listeners were added, the app has not reported itself installed and
    "Later" was never chosen; and a banner that is up always has a deferred
    prompt to fire. *)
Theorem banner_shows_iff evs b storage e :
  let s := run evs (mount b storage) in
  (visible (step s (BeforeInstallPrompt e)) = true ↔
   listening s = true ∧ isInstalled s = false ∧ dismissed s = false) ∧
  (visible s = true →
   is_Some (deferredPrompt s) ∧ dismissed s = false ∧ isInstalled s = false).
Proof.
  intros s.
  assert (banner_inv s) as (Hd & Hs & Hl)
    by apply banner_inv_run, banner_inv_mount.
  split.
  - cbn [step]. destruct (listening s) eqn:Hlis.
    + unfold visible, handleBeforeInstallPrompt.
      cbn [showPrompt deferredPrompt isInstalled].
      destruct (dismissed s) eqn:Hdis.
      * rewrite Hd by done. simpl. rewrite orb_true_r. simpl.
        split; [done|]. by intros (_ & _ & ?).
      * simpl. rewrite !orb_false_r. destruct (isInstalled s); simpl.
        -- split; [done|]. by intros (_ & ? & _).
        -- by split.
    + unfold visible. rewrite Hl by done. simpl.
      split; [done|]. by intros (? & _).
  - unfold visible. intros Hvis.
    destruct (isInstalled s); [done|].
    destruct (showPrompt s) eqn:Hshow; [|done].
    split_and!; [by apply Hs| |done].
    destruct (dismissed s); [|done]. by specialize (Hd eq_refl).
Qed.

(** X21.  Once the component holds [isInstalled], the banner stays hidden through
    every later event short of mounting the component again outside
    standalone mode. *)
Theorem installed_hides evs s :
  isInstalled s = true →
  Remount false ∉ evs →
  visible (run evs s) = false ∧ isInstalled (run evs s) = true.
Proof.
  unfold run. revert s. induction evs as [|ev evs IH]; intros s Hi Hno.
  - simpl. split; [|done]. unfold visible. by rewrite Hi.
  - cbn [foldl]. apply IH.
    + destruct ev as [e| | | |b]; cbn [step]; try done.
      * by destruct (listening s).
      * by destruct (listening s).
      * unfold handleInstallClick. by destruct (deferredPrompt s).
      * destruct b; [done|]. exfalso. apply Hno. left.
    + intros Hin. apply Hno. by right.
Qed.

End InstallPromptFacts.

(** ** The service worker *)

Section ServiceWorkerFacts.
Import ServiceWorker.

Lemma cachesMatch_put_ne name u r u' caches :
  u' ≠ u → cachesMatch u' (cachesPut name u r caches) = cachesMatch u' caches.
Proof.
  intros Hne. induction caches as [|[n c] rest IH]; cbn [cachesPut cachesMatch].
  - by rewrite lookup_singleton_ne.
  - destruct (String.eqb n name); cbn [cachesMatch].
    + by rewrite lookup_insert_ne.
    + by rewrite IH.
Qed.

Lemma cachesMatch_put_miss name u r caches :
  cachesMatch u caches = None →
  cachesMatch u (cachesPut name u r caches) = Some r.
Proof.
  induction caches as [|[n c] rest IH]; cbn [cachesPut cachesMatch].
  - intros _. by rewrite lookup_singleton_eq.
  - destruct (c !! u) eqn:Hc; [done|]. intros Hrest.
    destruct (String.eqb n name); cbn [cachesMatch].
    + by rewrite lookup_insert_eq.
    + rewrite Hc. by apply IH.
Qed.

Lemma cachesMatch_Some u r caches :
  cachesMatch u caches = Some r → ∃ n c, (n, c) ∈ caches ∧ c !! u = Some r.
Proof.
  induction caches as [|[n c] rest IH]; simpl; [done|].
  destruct (c !! u) eqn:Hc.
  - intros [= ->]. exists n, c. split; [left|done].
  - intros (n' & c' & Hin & Hr)%IH. exists n', c'. split; [by right|done].
Qed.

Lemma cachesMatch_is_Some u r n c caches :
  (n, c) ∈ caches → c !! u = Some r → is_Some (cachesMatch u caches).
Proof.
  induction caches as [|[n' c'] rest IH]; simpl.
  - by intros ?%elem_of_nil.
  - intros [[= <- <-]|Hin]%elem_of_cons Hr.
    + by rewrite Hr.
    + destruct (c' !! u); [done|]. by apply IH.
Qed.

Lemma prefix_app a b s :
  String.prefix (a ++ b)%string s = true → String.prefix a s = true.
Proof.
  revert s. induction a as [|x a IH]; intros s; [by destruct s|].
  destruct s as [|y s]; simpl; [done|].
  destruct (ascii_dec x y); [apply IH|done].
Qed.

Lemma includes_app a b s :
  includes (a ++ b)%string s = true → includes a s = true.
Proof.
  induction s as [|y s IH]; cbn [includes].
  - rewrite !orb_false_r. apply prefix_app.
  - intros [Hp|Hi]%orb_true_iff; apply orb_true_iff.
    + left. by apply (prefix_app a b).
    + right. by apply IH.
Qed.

Lemma onFetch_store idx request caches r :
  method request = "GET" → startsWith "http" (url request) = true →
  cachesMatch (url request) caches = None →
  status r = 200 → type r ≠ "error" →
  isDynamicContent (url request) = true →
  onFetch idx (Some r) request caches
  = (Some (Some r), cachesPut DYNAMIC_CACHE (url request) r caches).
Proof.
  intros Hm Hh Hmiss Hs Ht Hd. unfold onFetch.
  rewrite Hm, Hh, Hmiss, Hs, Hd. simpl.
  by destruct (String.eqb_spec (type r) "error").
Qed.

Lemma onFetch_hit idx network request caches r :
  method request = "GET" → startsWith "http" (url request) = true →
  cachesMatch (url request) caches = Some r →
  onFetch idx network request caches = (Some (Some r), caches).
Proof. intros Hm Hh Hhit. unfold onFetch. by rewrite Hm, Hh, Hhit. Qed.

(** Either the handler leaves the storage alone, or it stored the network
    response of a request that missed. *)
Lemma onFetch_storage idx network request caches :
  (onFetch idx network request caches).2 = caches ∨
  ∃ r, cachesMatch (url request) caches = None ∧
       method request = "GET" ∧ startsWith "http" (url request) = true ∧
       network = Some r ∧ status r = 200 ∧ type r ≠ "error" ∧
       isDynamicContent (url request) = true ∧
       onFetch idx network request caches
       = (Some (Some r), cachesPut DYNAMIC_CACHE (url request) r caches).
Proof.
  unfold onFetch.
  destruct (String.eqb_spec (method request) "GET") as [Hm|]; simpl; [|by left].
  destruct (startsWith "http" (url request)) eqn:Hh; simpl; [|by left].
  destruct (cachesMatch (url request) caches) eqn:Hmiss; [by left|].
  destruct network as [r|]; [|destruct (String.eqb _ _); by left].
  destruct (Z.eqb_spec (status r) 200) as [Hs|]; simpl; [|by left].
  destruct (String.eqb_spec (type r) "error") as [|Ht]; [by left|].
  destruct (isDynamicContent (url request)) eqn:Hd; [|by left].
  right. exists r. by split_and!.
Qed.

Lemma onFetch_keeps_hit idx network request caches u r :
  cachesMatch u caches = Some r →
  cachesMatch u (onFetch idx network request caches).2 = Some r.
Proof.
  intros Hu.
  destruct (onFetch_storage idx network request caches)
    as [->|(r' & Hmiss & _ & _ & _ & _ & _ & _ & ->)]; [done|].
  simpl. rewrite cachesMatch_put_ne; [done|]. intros ->. congruence.
Qed.

Lemma fetches_keep_hit idx evs caches u r :
  cachesMatch u caches = Some r →
  cachesMatch u (fetches idx evs caches) = Some r.
Proof.
  unfold fetches. revert caches.
  induction evs as [|[network request] evs IH]; intros caches Hu; [done|].
  cbn [foldl]. by apply IH, onFetch_keeps_hit.
Qed.

(** X22.  The storage is written in one case only: a GET request for an http(s)
    URL that is in no cache, answered by the network with status 200 and a
    type other than 'error', whose URL contains one of the listed
    extensions.  The response is then put under that URL into the dynamic
    cache and handed to the page.  In every other case the storage is left
    as it was. *)
Theorem fetch_stores_only_fresh_assets idx network request caches :
  (∀ r,
     method request = "GET" → startsWith "http" (url request) = true →
     cachesMatch (url request) caches = None →
     network = Some r → status r = 200 → type r ≠ "error" →
     isDynamicContent (url request) = true →
     onFetch idx network request caches
     = (Some (Some r), cachesPut DYNAMIC_CACHE (url request) r caches)) ∧
  ((onFetch idx network request caches).2 ≠ caches →
   ∃ r, method request = "GET" ∧ startsWith "http" (url request) = true ∧
        cachesMatch (url request) caches = None ∧
        network = Some r ∧ status r = 200 ∧ type r ≠ "error" ∧
        isDynamicContent (url request) = true).
Proof.
  split.
  - intros r Hm Hh Hmiss -> Hs Ht Hd. by apply onFetch_store.
  - intros Hne.
    destruct (onFetch_storage idx network request caches)
      as [Heq|(r & H1 & H2 & H3 & H4 & H5 & H6 & H7 & _)]; [done|].
    exists r. by split_and!.
Qed.

(** X23.  Once a response was stored for a request, the same request is answered
    with that response whatever the network does, offline included, and the
    storage is not written again. *)
Theorem stored_response_served_offline idx request caches r network2 :
  method request = "GET" → startsWith "http" (url request) = true →
  cachesMatch (url request) caches = None →
  status r = 200 → type r ≠ "error" →
  isDynamicContent (url request) = true →
  let caches' := (onFetch idx (Some r) request caches).2 in
  onFetch idx network2 request caches' = (Some (Some r), caches').
Proof.
  intros Hm Hh Hmiss Hs Ht Hd caches'. subst caches'.
  rewrite (onFetch_store idx request caches r) by done. cbn [snd].
  apply onFetch_hit; [done..|]. by apply cachesMatch_put_miss.
Qed.

(** X24.  Fetch events never replace an entry of the storage: a URL that has a
    cached response keeps it through any run of fetch events, and every GET
    for it is answered with that response and not with what the network
    holds. *)
Theorem cached_response_never_refreshed idx evs caches u r :
  cachesMatch u caches = Some r →
  cachesMatch u (fetches idx evs caches) = Some r ∧
  (∀ network request,
     method request = "GET" → startsWith "http" (url request) = true →
     url request = u →
     (onFetch idx network request (fetches idx evs caches)).1
     = Some (Some r)).
Proof.
  intros Hu.
  pose proof (fetches_keep_hit idx evs caches u r Hu) as Hkeep.
  split; [done|]. intros network request Hm Hh <-.
  by rewrite (onFetch_hit idx network request _ r).
Qed.

(** X25.  After activation only the three current caches are left, each as it
    was: what the storage then answers comes from one of them, and whatever
    one of them holds is still answered. *)
Theorem activate_keeps_current_caches caches :
  let current n := n = STATIC_CACHE ∨ n = DYNAMIC_CACHE ∨ n = CACHE_NAME in
  (∀ n c, (n, c) ∈ onActivate caches ↔ (n, c) ∈ caches ∧ current n) ∧
  (∀ u r, cachesMatch u (onActivate caches) = Some r →
          ∃ n c, (n, c) ∈ caches ∧ current n ∧ c !! u = Some r) ∧
  (∀ n c u r, (n, c) ∈ caches → current n → c !! u = Some r →
              is_Some (cachesMatch u (onActivate caches))).
Proof.
  intros current.
  assert (∀ n c, (n, c) ∈ onActivate caches ↔ (n, c) ∈ caches ∧ current n)
    as Hin.
  { intros n c. unfold onActivate.
    rewrite !list_elem_of_In, filter_In. subst current. simpl.
    destruct (String.eqb_spec n STATIC_CACHE),
      (String.eqb_spec n DYNAMIC_CACHE),
      (String.eqb_spec n CACHE_NAME); simpl; intuition congruence. }
  split_and!; [done| |].
  - intros u r (n & c & Hnc & Hr)%cachesMatch_Some.
    apply Hin in Hnc as [Hnc Hcur]. by exists n, c.
  - intros n c u r Hnc Hcur Hr.
    apply (cachesMatch_is_Some u r n c); [|done]. by apply Hin.
Qed.

(** X26.  A URL that contains '.json' passes the '.js' test, so JSON answers are
    stored like scripts; and the '.woff2' test never decides anything, since
    such a URL already passes the '.woff' test. *)
Theorem json_is_stored_as_script u :
  (includes ".json" u = true → isDynamicContent u = true) ∧
  (includes ".woff2" u = true → includes ".woff" u = true) ∧
  (∀ idx request caches r,
     url request = u → includes ".json" u = true →
     method request = "GET" → startsWith "http" u = true →
     cachesMatch u caches = None → status r = 200 → type r ≠ "error" →
     cachesMatch u (onFetch idx (Some r) request caches).2 = Some r).
Proof.
  assert (includes ".json" u = true → isDynamicContent u = true) as Hjson.
  { intros H. unfold isDynamicContent.
    by rewrite (includes_app ".js" "on" u H). }
  split_and!; [done| |].
  - apply (includes_app ".woff" "2").
  - intros idx request caches r <- Hj Hm Hh Hmiss Hs Ht.
    rewrite onFetch_store by auto. cbn [snd]. by apply cachesMatch_put_miss.
Qed.

End ServiceWorkerFacts.

(** ** The further statements on concrete inputs *)

Lemma validate_numeric_witness :
  let st := Scenario.gold in
  JS.parseFloat (Engine.price st) = JS.Num 7200 ∧
  JS.parseFloat (Engine.weight st) = JS.Num 10 ∧
  JS.parseInt (Engine.minPercent st) = JS.Int 8 ∧
  JS.parseInt (Engine.maxPercent st) = JS.Int 14 ∧
  ((Engine.validate st).1 = true ↔
   (0 < 7200)%Q ∧ (0 < 10)%Q ∧ 0 <= 8 <= 14).
Proof.
  cbn zeta. do 4 (split; [reflexivity|]).
  apply (validate_numeric Scenario.gold 7200 10 8 14); reflexivity.
Defined.

Lemma range_inverted_flag_witness :
  Engine.errors (Engine.validate Inputs.goldInverted).2 !! F_maxPercent
  = Some "Max must be >= min".
Proof.
  apply (range_inverted_flag Inputs.goldInverted).
  exists 9, 3. split; [reflexivity|]. split; [reflexivity|lia].
Defined.

Lemma failed_validation_blocks_witness :
  let st := Inputs.goldInverted in
  (Engine.validate st).1 = false ∧
  let st' := Gold.calculateAndSelect None st in
  Engine.results st' = [] ∧ Engine.selectedResult st' = None ∧
  Engine.errors st' = Engine.newErrors st ∧ Engine.newErrors st ≠ ∅ ∧
  Engine.price st' = Engine.price st ∧ Engine.weight st' = Engine.weight st ∧
  Engine.minPercent st' = Engine.minPercent st ∧
  Engine.maxPercent st' = Engine.maxPercent st ∧
  Engine.savedCalculations st' = Engine.savedCalculations st ∧
  Engine.savedCalculations (Gold.handleSave "5" st)
  = Engine.savedCalculations st.
Proof.
  cbn zeta. split; [reflexivity|].
  apply (failed_validation_blocks Gold.purityDecimal (fun p => p) None "5"
           Inputs.goldInverted).
  reflexivity.
Defined.

Lemma selection_none_iff_witness :
  (let st := Scenario.gold in
   let st' := Gold.calculateAndSelect (Some 10) st in
   JS.parseInt (Engine.maxPercent st) = JS.Int 14 ∧ 14 < 2 ^ 32 - 1 ∧
   (Engine.validate st).1 = true ∧
   ∃ r, Engine.selectedResult st' = Some r ∧ percent r = 10 ∧
        r ∈ Engine.results st' ∧ Engine.results st' ≠ []) ∧
  (let st := Scenario.goldAbc in
   let st' := Gold.calculateAndSelect (Some 8) st in
   JS.parseInt (Engine.minPercent st) = JS.INaN ∧
   Engine.results st' = [] ∧ Engine.selectedResult st' = None).
Proof.
  cbn zeta. split.
  - split; [reflexivity|]. split; [lia|]. split; [reflexivity|].
    destruct (selection_none_iff Gold.purityDecimal (Some 10) Scenario.gold)
      as (Hnone & Hnil & Hin).
    { intros b Hb. vm_compute in Hb. injection Hb as <-. lia. }
    eexists. split; [vm_compute; reflexivity|]. split; [reflexivity|].
    split; [apply Hin; vm_compute; reflexivity|].
    intros Hrs. apply Hnone in Hrs. vm_compute in Hrs. discriminate Hrs.
  - split; [reflexivity|].
    destruct (selection_none_iff Gold.purityDecimal (Some 8) Scenario.goldAbc)
      as (Hnone & Hnil & _).
    { intros b Hb. vm_compute in Hb. discriminate Hb. }
    assert (Engine.results
              (Engine.calculateAndSelect Gold.purityDecimal (Some 8)
                 Scenario.goldAbc) = []) as Hrs.
    { apply Hnil. right. left. reflexivity. }
    split; [exact Hrs|]. apply Hnone. exact Hrs.
Defined.

Lemma handleCalculate_selects_minimum_witness :
  let st := Scenario.gold in
  (Engine.validate st).1 = true ∧
  JS.parseInt (Engine.minPercent st) = JS.Int 8 ∧
  JS.parseInt (Engine.maxPercent st) = JS.Int 14 ∧
  14 < 2 ^ 32 - 1 ∧
  ∃ r,
    Engine.selectedResult (Engine.handleCalculate Gold.purityDecimal st)
    = Some r ∧
    head (Engine.results (Engine.handleCalculate Gold.purityDecimal st))
    = Some r ∧
    percent r = 8.
Proof.
  cbn zeta. do 3 (split; [reflexivity|]). split; [lia|].
  apply (handleCalculate_selects_minimum Gold.purityDecimal Scenario.gold 8 14);
    [reflexivity | reflexivity | reflexivity | lia].
Defined.

Lemma delete_absent_noop_witness :
  Forall (fun c => Engine.p_id c ≠ "99")
    (Engine.savedCalculations Inputs.goldThreeSaves) ∧
  Gold.deleteCalculation "99" Inputs.goldThreeSaves = Inputs.goldThreeSaves.
Proof.
  assert (Forall (fun c : Gold.CalculationParams => Engine.p_id c ≠ "99")
            (Engine.savedCalculations Inputs.goldThreeSaves)) as Hall
    by (apply (bool_decide_unpack _); vm_compute; exact I).
  split; [exact Hall|].
  apply (delete_absent_noop "99" Inputs.goldThreeSaves).
  by apply Forall_forall.
Defined.

Lemma delete_removes_exactly_witness :
  let st' := Gold.deleteCalculation "20" Inputs.goldThreeSaves in
  Engine.p_id <$> Engine.savedCalculations st' = ["30"; "10"] ∧
  ("20" ∉ (Engine.p_id <$> Engine.savedCalculations st')) ∧
  Gold.deleteCalculation "20" st' = st'.
Proof.
  cbn zeta. split; [reflexivity|].
  destruct (delete_removes_exactly "20" Inputs.goldThreeSaves)
    as (_ & _ & Hnot & Hidem).
  split; [exact Hnot | exact Hidem].
Defined.

Lemma save_then_delete_witness :
  let st := Inputs.goldThreeSaves in
  (Engine.validate st).1 = true ∧
  Forall (fun c => Engine.p_id c ≠ "40") (Engine.savedCalculations st) ∧
  (length (Engine.savedCalculations st) <= 9)%nat ∧
  Engine.savedCalculations (Gold.deleteCalculation "40" (Gold.handleSave "40" st))
  = Engine.savedCalculations st.
Proof.
  cbn zeta.
  assert (Forall (fun c : Gold.CalculationParams => Engine.p_id c ≠ "40")
            (Engine.savedCalculations Inputs.goldThreeSaves)) as Hall
    by (apply (bool_decide_unpack _); vm_compute; exact I).
  split; [reflexivity|]. split; [exact Hall|]. split; [vm_compute; lia|].
  apply (save_then_delete (fun p : Gold.purity => p) "40"
           Inputs.goldThreeSaves);
    [reflexivity | by apply Forall_forall | vm_compute; lia].
Defined.

Lemma ids_stay_unique_witness :
  let st := Inputs.goldThreeSaves in
  NoDup (Engine.p_id <$> Engine.savedCalculations st) ∧
  Forall (fun c => Engine.p_id c ≠ "40") (Engine.savedCalculations st) ∧
  NoDup (Engine.p_id <$> Engine.savedCalculations (Gold.handleSave "40" st)) ∧
  NoDup (Engine.p_id <$> Engine.savedCalculations
                           (Gold.deleteCalculation "20" st)).
Proof.
  cbn zeta.
  assert (NoDup (Engine.p_id <$>
                   Engine.savedCalculations Inputs.goldThreeSaves)) as Hnd
    by (apply (bool_decide_unpack _); vm_compute; exact I).
  assert (Forall (fun c : Gold.CalculationParams => Engine.p_id c ≠ "40")
            (Engine.savedCalculations Inputs.goldThreeSaves)) as Hall
    by (apply (bool_decide_unpack _); vm_compute; exact I).
  split; [exact Hnd|]. split; [exact Hall|].
  apply (ids_stay_unique (fun p : Gold.purity => p) "40" "20"
           Inputs.goldThreeSaves);
    [exact Hnd | by apply Forall_forall].
Defined.

Lemma saves_are_fifo_witness :
  let st := Scenario.goldFull in
  (Engine.validate st).1 = true ∧
  (length (Engine.savedCalculations st) <= 10)%nat ∧
  Engine.p_id <$>
    Engine.savedCalculations
      (foldl (fun s now => Gold.handleSave now s) st ["11"; "12"; "13"])
  = ["13"; "12"; "11"; "1"; "2"; "3"; "4"; "5"; "6"; "7"].
Proof.
  cbn zeta. split; [reflexivity|]. split; [vm_compute; lia|].
  unfold Gold.handleSave.
  rewrite (saves_are_fifo (fun p : Gold.purity => p) ["11"; "12"; "13"]
             Scenario.goldFull);
    [reflexivity | reflexivity | vm_compute; lia].
Defined.

Lemma save_then_replay_witness :
  let st' := Gold.calculateAndSelect (Some 12) Scenario.gold in
  ∃ r,
    Engine.selectedResult st' = Some r ∧ percent r = 12 ∧
    ∃ c,
      Engine.savedCalculations (Gold.handleSave "50" st') !! 0%nat = Some c ∧
      Engine.p_id c = "50" ∧
      Engine.p_selectedPercent c = Some (percent r) ∧
      Gold.calculateTotalFromParams c = total r.
Proof.
  cbn zeta. eexists. split; [vm_compute; reflexivity|].
  split; [reflexivity|].
  apply (save_then_replay Gold.purityDecimal Gold.purityDecimal
           (fun p => p) (Some 12) "50" Scenario.gold);
    [by intros [] | vm_compute; reflexivity].
Defined.

Lemma save_without_selection_replays_minimum_witness :
  let st := Scenario.gold in
  (Engine.validate st).1 = true ∧
  Engine.selectedResult st = None ∧
  JS.parseInt (Engine.minPercent st) = JS.Int 8 ∧
  JS.parseInt (Engine.maxPercent st) = JS.Int 14 ∧
  14 < 2 ^ 32 - 1 ∧
  ∃ c r,
    Engine.savedCalculations (Gold.handleSave "50" st) !! 0%nat = Some c ∧
    Engine.p_selectedPercent c = None ∧
    Engine.selectedResult (Engine.handleCalculate Gold.purityDecimal st)
    = Some r ∧
    percent r = 8 ∧
    Gold.calculateTotalFromParams c = total r.
Proof.
  cbn zeta. do 4 (split; [reflexivity|]). split; [lia|].
  apply (save_without_selection_replays_minimum Gold.purityDecimal
           Gold.purityDecimal (fun p => p) "50" Scenario.gold 8 14);
    [by intros [] | reflexivity | reflexivity | reflexivity | reflexivity
    | lia].
Defined.

Lemma save_then_load_restores_witness :
  let st := Scenario.gold in
  ∃ r,
    Engine.results (Engine.handleCalculate Gold.purityDecimal st) !! 4%nat
    = Some r ∧
    percent r = 12 ∧
    (Engine.validate st).1 = true ∧
    JS.parseInt (Engine.maxPercent st) = JS.Int 14 ∧ 14 < 2 ^ 32 - 1 ∧
    let st1 :=
      Engine.setSelectedResult (Some r)
        (Engine.handleCalculate Gold.purityDecimal st) in
    ∃ c,
      Engine.savedCalculations (Gold.handleSave "50" st1) !! 0%nat = Some c ∧
      Engine.p_selectedPercent c = Some 12 ∧
      let st3 :=
        Engine.loadRequestEffect Gold.purityDecimal
          (Gold.loadCalculation c Inputs.goldThreeSaves) in
      Engine.price st3 = Engine.price st ∧
      Engine.weight st3 = Engine.weight st ∧
      Engine.results st3 = Engine.results st1 ∧
      Engine.selectedResult st3 = Engine.selectedResult st1 ∧
      Engine.loadRequest st3 = None ∧
      Engine.savedCalculations st3
      = Engine.savedCalculations Inputs.goldThreeSaves.
Proof.
  cbn zeta. eexists. split; [vm_compute; reflexivity|].
  split; [reflexivity|]. split; [reflexivity|]. split; [reflexivity|].
  split; [lia|].
  apply (save_then_load_restores Gold.purityDecimal (fun p => p)
           (fun p _ => p) "50" Scenario.gold Inputs.goldThreeSaves).
  - done.
  - reflexivity.
  - intros b Hb. vm_compute in Hb. injection Hb as <-. lia.
  - apply list_elem_of_lookup. exists 4%nat. vm_compute. reflexivity.
Defined.

Lemma five_taps_close_witness :
  let m := View.mkModal true 2 in
  View.showCustomerView m = true ∧ 0 <= View.closeClickCount m ∧
  View.closeClickCount m + Z.of_nat 2 = 4 ∧
  Nat.iter 2 View.tapTitle m = View.mkModal true 4 ∧
  Nat.iter 3 View.tapTitle m = View.mkModal false 0 ∧
  Nat.iter 4 View.tapTitle (View.openView m) = View.mkModal true 4 ∧
  Nat.iter 5 View.tapTitle (View.openView m) = View.mkModal false 0.
Proof.
  cbn zeta.
  destruct (five_taps_close (View.mkModal true 2) 2)
    as (Hopen & Hclose & Hfresh & Hfifth); [reflexivity | simpl; lia | reflexivity |].
  split; [reflexivity|]. split; [simpl; lia|]. split; [reflexivity|].
  split; [apply (Hopen 2%nat); lia|]. split; [exact Hclose|].
  split; [apply (Hfresh _ 4%nat); lia | apply Hfifth].
Defined.

Lemma purity_defaults_are_valid_witness :
  (let st' := PurityEffect.gold Scenario.gold in
   Engine.minPercent st' = "8" ∧ Engine.maxPercent st' = "14" ∧
   (Gold.validate st').1 = true ∧
   length (Engine.results (Gold.calculateAndSelect None st')) = 7%nat) ∧
  (let st' := PurityEffect.silver Inputs.silverForm in
   Engine.minPercent st' = "8" ∧ Engine.maxPercent st' = "15" ∧
   (Silver.validate st').1 = true ∧
   length (Engine.results (Silver.calculateAndSelect None st')) = 8%nat).
Proof.
  destruct purity_defaults_are_valid as [Hgold Hsilver].
  split; cbn zeta; (split; [reflexivity|]); (split; [reflexivity|]).
  - apply (Hgold Scenario.gold 7200%Q 10%Q); reflexivity.
  - apply (Hsilver Inputs.silverForm 85%Q 50%Q); reflexivity.
Defined.

Lemma dismissed_forever_witness :
  let s := InstallPrompt.handleBeforeInstallPrompt 1
             (InstallPrompt.mount false ∅) in
  InstallPrompt.visible s = true ∧
  InstallPrompt.visible
    (InstallPrompt.run
       [InstallPrompt.BeforeInstallPrompt 2; InstallPrompt.Remount false;
        InstallPrompt.BeforeInstallPrompt 3]
       (InstallPrompt.handleDismiss s)) = false.
Proof.
  cbn zeta. split; [reflexivity|].
  apply (dismissed_forever
           [InstallPrompt.BeforeInstallPrompt 2; InstallPrompt.Remount false;
            InstallPrompt.BeforeInstallPrompt 3]).
Defined.

Lemma banner_shows_iff_witness :
  let s := InstallPrompt.run [InstallPrompt.InstallClick]
             (InstallPrompt.mount false ∅) in
  InstallPrompt.listening s = true ∧ InstallPrompt.isInstalled s = false ∧
  InstallPrompt.dismissed s = false ∧
  InstallPrompt.visible
    (InstallPrompt.step s (InstallPrompt.BeforeInstallPrompt 7)) = true.
Proof.
  cbn zeta. do 3 (split; [reflexivity|]).
  apply (banner_shows_iff [InstallPrompt.InstallClick] false ∅ 7).
  split_and!; reflexivity.
Defined.

Lemma installed_hides_witness :
  let s := InstallPrompt.handleAppInstalled
             (InstallPrompt.handleBeforeInstallPrompt 1
                (InstallPrompt.mount false ∅)) in
  let evs := [InstallPrompt.BeforeInstallPrompt 2; InstallPrompt.InstallClick;
              InstallPrompt.BeforeInstallPrompt 3] in
  InstallPrompt.isInstalled s = true ∧
  (InstallPrompt.Remount false ∉ evs) ∧
  InstallPrompt.visible (InstallPrompt.run evs s) = false ∧
  InstallPrompt.isInstalled (InstallPrompt.run evs s) = true.
Proof.
  cbn zeta.
  assert (InstallPrompt.Remount false
          ∉ [InstallPrompt.BeforeInstallPrompt 2; InstallPrompt.InstallClick;
             InstallPrompt.BeforeInstallPrompt 3]) as Hno.
  { intros Hin. repeat (apply elem_of_cons in Hin as [Hin|Hin]; [discriminate|]).
    by apply elem_of_nil in Hin. }
  split; [reflexivity|]. split; [exact Hno|].
  apply installed_hides; [reflexivity | exact Hno].
Defined.

Lemma fetch_stores_only_fresh_assets_witness :
  let request := Inputs.scriptRequest in
  let r := Inputs.okResponse in
  ServiceWorker.method request = "GET" ∧
  ServiceWorker.startsWith "http" (ServiceWorker.url request) = true ∧
  ServiceWorker.cachesMatch (ServiceWorker.url request) Inputs.someCaches
  = None ∧
  ServiceWorker.status r = 200 ∧ ServiceWorker.type r ≠ "error" ∧
  ServiceWorker.isDynamicContent (ServiceWorker.url request) = true ∧
  ServiceWorker.onFetch "https://nl.example/index.html" (Some r) request
    Inputs.someCaches
  = (Some (Some r),
     ServiceWorker.cachesPut ServiceWorker.DYNAMIC_CACHE
       (ServiceWorker.url request) r Inputs.someCaches).
Proof.
  cbn zeta. do 4 (split; [reflexivity|]). split; [discriminate|].
  split; [reflexivity|].
  apply (proj1 (fetch_stores_only_fresh_assets
                  "https://nl.example/index.html" (Some Inputs.okResponse)
                  Inputs.scriptRequest Inputs.someCaches));
    [reflexivity | reflexivity | reflexivity | reflexivity | reflexivity
    | discriminate | reflexivity].
Defined.

Lemma stored_response_served_offline_witness :
  let request := Inputs.scriptRequest in
  let r := Inputs.okResponse in
  let caches' :=
    (ServiceWorker.onFetch "https://nl.example/index.html" (Some r) request
       Inputs.someCaches).2 in
  ServiceWorker.cachesMatch (ServiceWorker.url request) Inputs.someCaches
  = None ∧
  ServiceWorker.onFetch "https://nl.example/index.html" None request caches'
  = (Some (Some r), caches').
Proof.
  cbn zeta. split; [reflexivity|].
  apply (stored_response_served_offline "https://nl.example/index.html"
           Inputs.scriptRequest Inputs.someCaches Inputs.okResponse None);
    [reflexivity | reflexivity | reflexivity | reflexivity | discriminate
    | reflexivity].
Defined.

Lemma cached_response_never_refreshed_witness :
  let u := "https://nl.example/" in
  let evs := [(Some Inputs.okResponse, Inputs.scriptRequest);
              (Some Inputs.okResponse,
               ServiceWorker.mkRequest "GET" u "document")] in
  ServiceWorker.cachesMatch u Inputs.someCaches = Some Inputs.staleResponse ∧
  ServiceWorker.cachesMatch u
    (ServiceWorker.fetches "https://nl.example/index.html" evs
       Inputs.someCaches)
  = Some Inputs.staleResponse.
Proof.
  cbn zeta. split; [reflexivity|].
  apply cached_response_never_refreshed. reflexivity.
Defined.

Lemma activate_keeps_current_caches_witness :
  let u := "https://nl.example/" in
  ServiceWorker.cachesMatch u Inputs.someCaches = Some Inputs.staleResponse ∧
  ServiceWorker.cachesMatch u (ServiceWorker.onActivate Inputs.someCaches)
  = Some Inputs.okResponse ∧
  is_Some (ServiceWorker.cachesMatch u
             (ServiceWorker.onActivate Inputs.someCaches)).
Proof.
  cbn zeta. split; [reflexivity|]. split; [reflexivity|].
  apply (proj2 (proj2 (activate_keeps_current_caches Inputs.someCaches))
           ServiceWorker.STATIC_CACHE
           {["https://nl.example/" := Inputs.okResponse]}
           "https://nl.example/" Inputs.okResponse).
  - right. left.
  - by left.
  - reflexivity.
Defined.

Lemma json_is_stored_as_script_witness :
  let u := ServiceWorker.url Inputs.manifestRequest in
  ServiceWorker.includes ".json" u = true ∧
  ServiceWorker.isDynamicContent u = true ∧
  ServiceWorker.cachesMatch u
    (ServiceWorker.onFetch "https://nl.example/index.html"
       (Some Inputs.okResponse) Inputs.manifestRequest Inputs.someCaches).2
  = Some Inputs.okResponse.
Proof.
  cbn zeta.
  destruct (json_is_stored_as_script
              (ServiceWorker.url Inputs.manifestRequest)) as (Hjs & _ & Hst).
  split; [reflexivity|]. split; [apply Hjs; reflexivity|].
  apply Hst;
    [reflexivity | reflexivity | reflexivity | reflexivity | reflexivity
    | reflexivity | discriminate].
Defined.
